(** * Momentera: the event planner's calendar, recurrence, task and budget core

    A shallow embedding of [src/event_class.py] (class [EventPlanner]) and of
    the parts of Python's [datetime] module it calls, followed by the
    properties of the temporal / aggregation layer.

    Conventions of the embedding:
    - a Python exception is a value of [exn]; a call that may raise returns
      [exc A] and [x <- c ;; k] propagates the exception;
    - what [_speak] prints is collected as a list of [line]s (decorative
      emoji of the messages are left out);
    - [datetime.date] is a record of three integers, built only through
      [make_date], which raises [ValueError] outside the supported range
      and [OverflowError] when an argument does not fit a C [int];
    - dictionaries keep insertion order ([Dict]);
    - budgets are Python floats, modelled by the kernel's binary64 floats;
      an integer budget is represented by the float it converts to;
    - interactive input ([input], [_input_valid_*]) is passed as arguments
      holding the values those calls returned;
    - text is a string of bytes, and the calls that read digits
      ([strptime], [str.isdigit], [int]) are modelled on ASCII text: the
      digits of other scripts, which Python accepts too, are not digits
      here, and [int] has no limit on the length of a decimal string
      (CPython from 3.11 refuses more than 4300 digits by default). *)

From Stdlib Require Import ZArith List String Ascii Bool Lia Floats.
From Stdlib Require Import Permutation Sorted.
Import ListNotations.
Open Scope string_scope.
Open Scope list_scope.
Open Scope Z_scope.

(** ** Exceptions *)

Inductive exn : Type := ValueError | TypeError | OverflowError.

Inductive exc (A : Type) : Type :=
| Ok (a : A)
| Raise (e : exn).
Arguments Ok {A} a.
Arguments Raise {A} e.

Definition bind {A B : Type} (c : exc A) (k : A -> exc B) : exc B :=
  match c with
  | Ok a => k a
  | Raise e => Raise e
  end.

Notation "x <- c ;; k" := (bind c (fun x => k))
  (at level 61, c at next level, right associativity).

(** ** Python's [datetime.date] *)

Module Calendar.

Record date : Type := mkdate { year : Z; month : Z; day : Z }.

Definition MINYEAR : Z := 1.
Definition MAXYEAR : Z := 9999.
Definition MAXORDINAL : Z := 3652059.

(** [_is_leap] *)
Definition is_leap (y : Z) : bool :=
  (y mod 4 =? 0) && (negb (y mod 100 =? 0) || (y mod 400 =? 0)).

(** [_days_in_month] *)
Definition days_in_month (y m : Z) : Z :=
  match m with
  | 1 => 31
  | 2 => if is_leap y then 29 else 28
  | 3 => 31
  | 4 => 30
  | 5 => 31
  | 6 => 30
  | 7 => 31
  | 8 => 31
  | 9 => 30
  | 10 => 31
  | 11 => 30
  | 12 => 31
  | _ => 0
  end.

(** [_check_date_fields] *)
Definition valid_date (d : date) : bool :=
  (MINYEAR <=? year d) && (year d <=? MAXYEAR)
  && (1 <=? month d) && (month d <=? 12)
  && (1 <=? day d) && (day d <=? days_in_month (year d) (month d)).

(** The arguments of [datetime.date] and [date.replace] are converted to
    C [int]s before anything else is looked at. *)
Definition fits_c_int (z : Z) : bool :=
  (-2147483648 <=? z) && (z <=? 2147483647).

(** [datetime.date(y, m, d)]: [OverflowError] when an argument does not
    fit a C [int], [ValueError] when the fields fit but are no date. *)
Definition make_date (y m d : Z) : exc date :=
  if fits_c_int y && fits_c_int m && fits_c_int d then
    if valid_date (mkdate y m d) then Ok (mkdate y m d) else Raise ValueError
  else Raise OverflowError.

(** [_days_before_year] *)
Definition days_before_year (y : Z) : Z :=
  let y' := y - 1 in y' * 365 + y' / 4 - y' / 100 + y' / 400.

(** [_DAYS_BEFORE_MONTH] *)
Definition DAYS_BEFORE_MONTH (m : Z) : Z :=
  match m with
  | 1 => 0
  | 2 => 31
  | 3 => 59
  | 4 => 90
  | 5 => 120
  | 6 => 151
  | 7 => 181
  | 8 => 212
  | 9 => 243
  | 10 => 273
  | 11 => 304
  | 12 => 334
  | _ => -1
  end.

(** [_DAYS_IN_MONTH] *)
Definition DAYS_IN_MONTH (m : Z) : Z :=
  match m with
  | 1 => 31
  | 2 => 28
  | 3 => 31
  | 4 => 30
  | 5 => 31
  | 6 => 30
  | 7 => 31
  | 8 => 31
  | 9 => 30
  | 10 => 31
  | 11 => 30
  | 12 => 31
  | _ => -1
  end.

(** [_days_before_month] *)
Definition days_before_month (y m : Z) : Z :=
  DAYS_BEFORE_MONTH m + (if (2 <? m) && is_leap y then 1 else 0).

(** [date.toordinal], i.e. [_ymd2ord] *)
Definition toordinal (d : date) : Z :=
  days_before_year (year d) + days_before_month (year d) (month d) + day d.

Definition DI400Y : Z := 146097.
Definition DI100Y : Z := 36524.
Definition DI4Y : Z := 1461.

(** [_ord2ymd] on the offset [n] inside a 400-year cycle: the year counted
    from the start of the cycle, the month and the day. *)
Definition ord2ymd_cycle (n : Z) : Z * Z * Z :=
  let n100 := n / DI100Y in
  let n := n mod DI100Y in
  let n4 := n / DI4Y in
  let n := n mod DI4Y in
  let n1 := n / 365 in
  let n := n mod 365 in
  let yr := n100 * 100 + n4 * 4 + n1 + 1 in
  if (n1 =? 4) || (n100 =? 4) then (yr - 1, 12, 31)
  else
    let leapyear := (n1 =? 3) && (negb (n4 =? 24) || (n100 =? 3)) in
    let mth := Z.shiftr (n + 50) 5 in
    let preceding :=
      DAYS_BEFORE_MONTH mth + (if (2 <? mth) && leapyear then 1 else 0) in
    if n <? preceding then
      let mth' := mth - 1 in
      let preceding' :=
        preceding
        - (DAYS_IN_MONTH mth' + (if (mth' =? 2) && leapyear then 1 else 0)) in
      (yr, mth', n - preceding' + 1)
    else (yr, mth, n - preceding + 1).

(** [date.fromordinal], i.e. [_ord2ymd] *)
Definition fromordinal (n : Z) : date :=
  let n := n - 1 in
  let n400 := n / DI400Y in
  let '(yr, mth, dy) := ord2ymd_cycle (n mod DI400Y) in
  mkdate (n400 * 400 + yr) mth dy.

(** Comparison of dates: Python compares [(year, month, day)] tuples. *)
Definition date_cmp (a b : date) : comparison :=
  match year a ?= year b with
  | Eq => match month a ?= month b with
          | Eq => day a ?= day b
          | c => c
          end
  | c => c
  end.

Definition date_leb (a b : date) : bool :=
  match date_cmp a b with Gt => false | _ => true end.

Definition date_ltb (a b : date) : bool :=
  match date_cmp a b with Lt => true | _ => false end.

(** [(a - b).days] *)
Definition days_between (a b : date) : Z := toordinal a - toordinal b.

(** [d + datetime.timedelta(days=k)]: [OverflowError] when the timedelta
    cannot be built or the sum leaves the supported range. *)
Definition add_days (d : date) (k : Z) : exc date :=
  if Z.abs k >? 999999999 then Raise OverflowError
  else
    let o := toordinal d + k in
    if (0 <? o) && (o <=? MAXORDINAL) then Ok (fromordinal o)
    else Raise OverflowError.

(** *** [datetime.datetime.strptime(s, "%Y-%m-%d")]

    The format compiles to the regular expression
    [(\d\d\d\d)-(1[0-2]|0[1-9]|[1-9])-(3[0-1]|[1-2]\d|0[1-9]|[1-9]| [1-9])];
    text left after the match is an error, and so is a date that
    [datetime.date] refuses.  Strings are ASCII text. *)

Definition digit (c : ascii) : option Z :=
  let n := Z.of_N (N_of_ascii c) in
  if (48 <=? n) && (n <=? 57) then Some (n - 48) else None.

Definition digit_in (lo hi : Z) (c : ascii) : option Z :=
  match digit c with
  | Some v => if (lo <=? v) && (v <=? hi) then Some v else None
  | None => None
  end.

(** The group [%m]: the value and the rest of the text. *)
Definition match_m (s : string) : option (Z * string) :=
  match s with
  | String c1 rest =>
      let two :=
        match rest with
        | String c2 rest' =>
            match digit_in 1 1 c1, digit_in 0 2 c2 with
            | Some _, Some v => Some (10 + v, rest')
            | _, _ =>
                match digit_in 0 0 c1, digit_in 1 9 c2 with
                | Some _, Some v => Some (v, rest')
                | _, _ => None
                end
            end
        | EmptyString => None
        end in
      match two with
      | Some r => Some r
      | None =>
          match digit_in 1 9 c1 with
          | Some v => Some (v, rest)
          | None => None
          end
      end
  | EmptyString => None
  end.

(** The group [%d]: the value and the rest of the text. *)
Definition match_d (s : string) : option (Z * string) :=
  match s with
  | String c1 rest =>
      let two :=
        match rest with
        | String c2 rest' =>
            match digit_in 3 3 c1, digit_in 0 1 c2 with
            | Some _, Some v => Some (30 + v, rest')
            | _, _ =>
                match digit_in 1 2 c1, digit_in 0 9 c2 with
                | Some u, Some v => Some (10 * u + v, rest')
                | _, _ =>
                    match digit_in 0 0 c1, digit_in 1 9 c2 with
                    | Some _, Some v => Some (v, rest')
                    | _, _ => None
                    end
                end
            end
        | EmptyString => None
        end in
      match two with
      | Some r => Some r
      | None =>
          match digit_in 1 9 c1 with
          | Some v => Some (v, rest)
          | None =>
              match rest with
              | String c2 rest' =>
                  if Ascii.eqb c1 " "%char then
                    match digit_in 1 9 c2 with
                    | Some v => Some (v, rest')
                    | None => None
                    end
                  else None
              | EmptyString => None
              end
          end
      end
  | EmptyString => None
  end.

Definition strptime (s : string) : exc date :=
  match s with
  | String y1 (String y2 (String y3 (String y4 (String dash rest)))) =>
      match digit y1, digit y2, digit y3, digit y4 with
      | Some a, Some b, Some c, Some d =>
          if Ascii.eqb dash "-"%char then
            match match_m rest with
            | Some (m, String dash' rest') =>
                if Ascii.eqb dash' "-"%char then
                  match match_d rest' with
                  | Some (dd, EmptyString) =>
                      make_date (1000 * a + 100 * b + 10 * c + d) m dd
                  | _ => Raise ValueError
                  end
                else Raise ValueError
            | _ => Raise ValueError
            end
          else Raise ValueError
      | _, _, _, _ => Raise ValueError
      end
  | _ => Raise ValueError
  end.

(** Python's [datetime.datetime]: a date and the microseconds past
    midnight.  [strptime] with the format above yields midnight. *)
Record datetime : Type := mkdatetime { dt_date : date; dt_micro : Z }.

Definition datetime_max : datetime :=
  mkdatetime (mkdate 9999 12 31) 86399999999.

Definition datetime_ltb (a b : datetime) : bool :=
  match date_cmp (dt_date a) (dt_date b) with
  | Lt => true
  | Eq => dt_micro a <? dt_micro b
  | Gt => false
  end.

End Calendar.
Import Calendar.

(** ** Insertion-ordered dictionaries with string keys *)

Module Dict.
Section Ops.
Context {V : Type}.

Definition t : Type := list (string * V).

(** [d.get(k)] *)
Fixpoint get (k : string) (d : t) : option V :=
  match d with
  | [] => None
  | (k', v) :: r => if String.eqb k k' then Some v else get k r
  end.

(** [k in d] *)
Definition mem (k : string) (d : t) : bool :=
  match get k d with Some _ => true | None => false end.

(** [d[k] = v]: an existing key keeps its place, a new one goes last. *)
Fixpoint set (k : string) (v : V) (d : t) : t :=
  match d with
  | [] => [(k, v)]
  | (k', v') :: r =>
      if String.eqb k k' then (k, v) :: r else (k', v') :: set k v r
  end.

(** The dictionary once [d.pop(k)] has run. *)
Definition remove (k : string) (d : t) : t :=
  filter (fun kv => negb (String.eqb k (fst kv))) d.

Definition keys (d : t) : list string := map fst d.
End Ops.
Arguments t V : clear implicits.
End Dict.

(** ** Data model: the dictionaries the planner stores *)

(** A budget as stored: [None] (what [_input_valid_float] returns after
    too many invalid attempts), a float, or a string. *)
Inductive pyval : Type :=
| PNone
| PFloat (f : float)
| PStr (s : string).

Record task : Type := mktask {
  task_text : string;        (* "task" *)
  deadline : string;         (* "deadline", "" when there is none *)
  task_priority : string;    (* "priority" *)
  status : string;           (* "status" *)
  task_budget : pyval        (* "budget" *)
}.

Record recurrence : Type := mkrecurrence {
  enabled : bool;
  frequency : option string; (* [None] when the key is missing *)
  interval : Z;
  until : option string      (* [None] when the key is missing *)
}.

(** [{"enabled": False}] *)
Definition no_recurrence : recurrence := mkrecurrence false None 1 None.

Record event : Type := mkevent {
  ev_date : string;
  notes : string;
  tags : list string;
  category : string;
  priority : string;
  budget : pyval;
  pinned : bool;
  starred : bool;
  reminder_days : option Z;
  start_time : option string;
  end_time : option string;
  ev_recurrence : recurrence;
  tasks : list task;
  archived_tasks : list task
}.

Definition set_tasks (e : event) (ts : list task) : event :=
  mkevent (ev_date e) (notes e) (tags e) (category e) (priority e) (budget e)
          (pinned e) (starred e) (reminder_days e) (start_time e) (end_time e)
          (ev_recurrence e) ts (archived_tasks e).

Definition set_archived_tasks (e : event) (ts : list task) : event :=
  mkevent (ev_date e) (notes e) (tags e) (category e) (priority e) (budget e)
          (pinned e) (starred e) (reminder_days e) (start_time e) (end_time e)
          (ev_recurrence e) (tasks e) ts.

(** The state of an [EventPlanner]. *)
Record planner : Type := mkplanner {
  events : Dict.t event;
  archived_events : Dict.t event
}.

(** What [_speak] is called with. *)
Inductive line : Type :=
| Say (text : string)
| UpcomingOn (name : string) (date_text : string)
    (* "{name} on {e['date']}" *)
| UpcomingRecurringOn (name : string) (d : date)
    (* "{name} (recurring) on {next_date}" *)
| InvalidDeadlineFormat (task_name : string)
    (* "Invalid deadline format for task '{...}'. Using default placeholder." *)
| InvalidBudgetInTask (task_name : string)
    (* "Invalid budget in task: {...}. Skipping." *)
| BudgetSummaryFor (name : string)
| EventBudget (b : float)
| TaskBudgetUsed (total : float)
| RemainingWithin (remaining : float)
    (* "Remaining amount is {remaining} rupees. Within budget." *)
| OverBudgetBy (amount : float)
    (* "Over budget by {abs(remaining)} rupees." *)
| Usage (percent : Z)
    (* "Usage: {used_percent}%" *)
| TaskListing (i : Z) (text : string)
    (* "{i}. {task['task']}" *)
| Editing (text : string).
    (* "Editing: {task['task']}" *)

(** ** Calendar arithmetic of the planner *)

(** [EventPlanner.add_months] *)
Definition add_months (d : date) (months : Z) : exc date :=
  let mth := month d - 1 + months in
  let yr := year d + mth / 12 in
  let mth := mth mod 12 + 1 in
  let dy :=
    Z.min (day d)
      (nth (Z.to_nat (mth - 1))
         [31;
          if (yr mod 4 =? 0)
             && (negb (yr mod 100 =? 0) || (yr mod 400 =? 0))
          then 29 else 28;
          31; 30; 31; 30; 31; 31; 30; 31; 30; 31] 0) in
  match make_date yr mth dy with
  | Ok r => Ok r
  | Raise ValueError => make_date yr mth dy
  | Raise e => Raise e
  end.

(** [EventPlanner.add_years] *)
Definition add_years (d : date) (years : Z) : exc date :=
  match make_date (year d + years) (month d) (day d) with
  | Ok r => Ok r
  | Raise ValueError => make_date (year d + years) 2 28
  | Raise e => Raise e
  end.

(** ** Events: creation, archive and restore *)

(** [EventPlanner.create_event]; [fields] holds what the prompts returned. *)
Definition create_event (name : string) (fields : event) (p : planner)
  : planner * list line :=
  if String.eqb name "" then (p, [Say "Event name cannot be empty."])
  else if Dict.mem name (events p) then (p, [Say "Event already exists."])
  else
    (mkplanner
       (Dict.set name (set_archived_tasks (set_tasks fields []) []) (events p))
       (archived_events p),
     [Say "Event created!"]).

Definition archive_menu : list line :=
  [Say "Archive Manager"; Say "1. Archive Event"; Say "2. View Archived";
   Say "3. Restore Archived"; Say "0. Back"].

(** [EventPlanner.manage_event_archive]; [choice] and [name] are the two
    inputs ([name] is not read for choices "2" and "0"). *)
Definition manage_event_archive (choice name : string) (p : planner)
  : planner * list line :=
  if String.eqb choice "1" then
    match Dict.get name (events p) with
    | Some e =>
        (mkplanner (Dict.remove name (events p))
                   (Dict.set name e (archived_events p)),
         archive_menu ++ [Say "Event archived."])
    | None => (p, archive_menu ++ [Say "Event not found."])
    end
  else if String.eqb choice "2" then
    match archived_events p with
    | [] => (p, archive_menu ++ [Say "No archived events."])
    | _ => (p, archive_menu
                 ++ map (fun k => Say (String.append "- " k))
                        (Dict.keys (archived_events p)))
    end
  else if String.eqb choice "3" then
    match Dict.get name (archived_events p) with
    | Some e =>
        if Dict.mem name (events p) then
          (p, archive_menu
                ++ [Say "Cannot restore. An event with this name already exists."])
        else
          (mkplanner (Dict.set name e (events p))
                     (Dict.remove name (archived_events p)),
           archive_menu ++ [Say "Restored."])
    | None => (p, archive_menu ++ [Say "Not found."])
    end
  else if String.eqb choice "0" then (p, archive_menu)
  else (p, archive_menu ++ [Say "Invalid."]).

(** ** Tasks *)

(** [EventPlanner._get_event] with a name given. *)
Definition get_event (name : string) (p : planner)
  : option event * list line :=
  if String.eqb name "" then (None, [Say "Event name cannot be empty."])
  else
    match Dict.get name (events p) with
    | None => (None, [Say "Event not found."])
    | Some e => (Some e, [])
    end.

Definition update_event (name : string) (e : event) (p : planner) : planner :=
  mkplanner (Dict.set name e (events p)) (archived_events p).

(** [EventPlanner.add_tasks] with a [task_list]: the batch path. *)
Definition add_tasks_batch (name : string) (task_list : list task)
  (p : planner) : planner * list line :=
  match get_event name p with
  | (None, out) => (p, out)
  | (Some e, out) =>
      (update_event name (set_tasks e (tasks e ++ task_list)) p,
       out ++ [Say "Tasks added."])
  end.

(** The deadline check of the interactive path of [add_tasks]: the deadline
    to store and what is spoken. *)
Definition add_tasks_check_deadline (e : event) (deadline : string)
  : exc (string * list line) :=
  if String.eqb deadline "" then Ok (deadline, [])
  else
    match (task_date <- strptime deadline ;;
           event_date <- strptime (ev_date e) ;;
           Ok (task_date, event_date)) with
    | Ok (task_date, event_date) =>
        if negb (enabled (ev_recurrence e)) && date_ltb event_date task_date
        then Ok ("", [Say "Deadline must be on or before event date unless event is recurring."])
        else Ok (deadline, [])
    | Raise ValueError =>
        Ok ("", [Say "Invalid deadline format. Skipping deadline."])
    | Raise e' => Raise e'
    end.

(** [EventPlanner.add_tasks] without a [task_list]: the interactive path.
    [task_text], [deadline], [priority], [status] and [budget] are what the
    prompts returned, in the order they are asked. *)
Definition add_tasks (name : string) (task_text deadline : string)
  (prio stat : string) (bud : pyval) (p : planner)
  : exc (planner * list line) :=
  match get_event name p with
  | (None, out) => Ok (p, out)
  | (Some e, out) =>
      r <- add_tasks_check_deadline e deadline ;;
      let '(deadline', warn) := r in
      let t := mktask task_text deadline' prio stat bud in
      Ok (update_event name (set_tasks e (tasks e ++ [t])) p,
          out ++ warn ++ [Say "Task added."])
  end.

(** Option "2" of [EventPlanner.edit_task]: the deadline to store. *)
Definition edit_task_check_deadline (e : event) (deadline : string)
  : string * list line :=
  if String.eqb deadline "" then (deadline, [])
  else
    match (task_date <- strptime deadline ;;
           event_date <- strptime (ev_date e) ;;
           Ok (task_date, event_date)) with
    | Ok (task_date, event_date) =>
        if negb (enabled (ev_recurrence e)) && date_ltb event_date task_date
        then ("", [Say "Deadline must be on or before event date unless event is recurring."])
        else (deadline, [])
    | Raise _ => ("", [Say "Could not validate deadline. Skipping deadline."])
    end.

Definition set_deadline (t : task) (dl : string) : task :=
  mktask (task_text t) dl (task_priority t) (status t) (task_budget t).

Fixpoint replace_nth {A : Type} (n : nat) (x : A) (l : list A) : list A :=
  match l, n with
  | [], _ => []
  | _ :: r, O => x :: r
  | y :: r, S n' => y :: replace_nth n' x r
  end.

(** [s.isdigit()] and [int(s)] on ASCII text.  [int_of_digits] is what
    [int] returns once [isdigit] has accepted the text. *)
Definition is_digit_string (s : string) : bool :=
  negb (String.eqb s "")
  && forallb (fun c => match digit c with Some _ => true | None => false end)
             (list_ascii_of_string s).

Definition int_of_digits (s : string) : Z :=
  fold_left (fun acc c => 10 * acc + match digit c with Some v => v | None => 0 end)
            (list_ascii_of_string s) 0.

Definition edit_menu : line :=
  Say "1. Description 2. Deadline 3. Priority 4. Status 5. Budget 6. Delete Task 0. Done".

(** [EventPlanner.edit_task]: the task is chosen by [index_input], its
    deadline edited (option "2", with the deadline [_input_valid_date]
    returned), and the menu left (option "0"). *)
Definition edit_task_deadline (name index_input deadline : string) (p : planner)
  : planner * list line :=
  match get_event name p with
  | (None, out) => (p, out)
  | (Some e, out) =>
      match tasks e with
      | [] => (p, out ++ [Say "No tasks to edit."])
      | _ =>
          let listing :=
            map (fun it => TaskListing (Z.of_nat (fst it)) (task_text (snd it)))
                (combine (seq 1 (List.length (tasks e))) (tasks e)) in
          if negb (is_digit_string index_input)
          then (p, out ++ listing ++ [Say "Please enter a number."])
          else
            let index := int_of_digits index_input - 1 in
            if (index <? 0) || (index >=? Z.of_nat (List.length (tasks e)))
            then (p, out ++ listing ++ [Say "Invalid task number."])
            else
              match nth_error (tasks e) (Z.to_nat index) with
              | None => (p, out ++ listing)
              | Some t =>
                  let '(deadline', warn) := edit_task_check_deadline e deadline in
                  (update_event name
                     (set_tasks e
                        (replace_nth (Z.to_nat index)
                                     (set_deadline t deadline') (tasks e))) p,
                   out ++ listing
                     ++ [Editing (task_text t); edit_menu] ++ warn
                     ++ [Editing (task_text t); edit_menu])
              end
      end
  end.

(** ** Sorting tasks *)

(** [list.sort(key=...)]: the keys are computed first, in list order; the
    sort is stable and compares keys with [<] only.  It is modelled by an
    insertion sort that inserts from the right; a comparison that raises
    aborts the sort. *)
Section ListSort.
Context {A K : Type}.
Variable lt : K -> K -> exc bool.
Variable key : A -> list line * exc K.

Fixpoint decorate (l : list A) : list line * exc (list (K * A)) :=
  match l with
  | [] => ([], Ok [])
  | x :: r =>
      match key x with
      | (o, Raise e) => (o, Raise e)
      | (o, Ok k) =>
          match decorate r with
          | (o', Raise e) => (o ++ o', Raise e)
          | (o', Ok kr) => (o ++ o', Ok ((k, x) :: kr))
          end
      end
  end.

Fixpoint insert (x : K * A) (l : list (K * A)) : exc (list (K * A)) :=
  match l with
  | [] => Ok [x]
  | y :: r =>
      b <- lt (fst y) (fst x) ;;
      if b then (r' <- insert x r ;; Ok (y :: r')) else Ok (x :: y :: r)
  end.

Fixpoint isort (l : list (K * A)) : exc (list (K * A)) :=
  match l with
  | [] => Ok []
  | x :: r => r' <- isort r ;; insert x r'
  end.

Definition list_sort (l : list A) : list line * exc (list A) :=
  match decorate l with
  | (o, Raise e) => (o, Raise e)
  | (o, Ok kl) => (o, (s <- isort kl ;; Ok (map snd s)))
  end.
End ListSort.

(** [by_deadline]: [None] is the placeholder returned for a deadline that
    does not parse. *)
Definition by_deadline (t : task) : list line * exc (option datetime) :=
  if String.eqb (deadline t) "" then ([], Ok (Some datetime_max))
  else
    match strptime (deadline t) with
    | Ok d => ([], Ok (Some (mkdatetime d 0)))
    | Raise ValueError => ([InvalidDeadlineFormat (task_text t)], Ok None)
    | Raise e => ([], Raise e)
    end.

(** [a < b] on the keys of [by_deadline]: ordering [None] against a
    [datetime] or against [None] is a [TypeError]. *)
Definition deadline_key_lt (a b : option datetime) : exc bool :=
  match a, b with
  | Some x, Some y => Ok (datetime_ltb x y)
  | _, _ => Raise TypeError
  end.

(** [by_priority] *)
Definition by_priority (t : task) : list line * exc Z :=
  ([], Ok (if String.eqb (task_priority t) "High" then 0
           else if String.eqb (task_priority t) "Medium" then 1
           else if String.eqb (task_priority t) "Low" then 2
           else 1)).

(** [by_completed] *)
Definition by_completed (t : task) : list line * exc bool :=
  ([], Ok (String.eqb (status t) "Completed")).

(** [by_budget]: unary minus is a [TypeError] on [None] and on a string. *)
Definition by_budget (t : task) : list line * exc float :=
  match task_budget t with
  | PFloat f => ([], Ok (- f)%float)
  | _ => ([], Raise TypeError)
  end.

Definition sort_menu : list line :=
  [Say "Sort Tasks By:";
   Say "1. Deadline (soonest first) 2. Priority (High first) 3. Completed last 4. Budget (high to low)"].

(** [EventPlanner.sort_tasks]; [task_type] and [option] are the inputs. *)
Definition sort_tasks (name task_type option : string) (p : planner)
  : list line * exc planner :=
  match get_event name p with
  | (None, out) => (out, Ok p)
  | (Some e, out) =>
      let out :=
        out ++ [Say "Sort which tasks?"; Say "1. Active Tasks 2. Archived Tasks"] in
      let chosen :=
        if String.eqb task_type "1" then Some (tasks e, set_tasks e)
        else if String.eqb task_type "2"
             then Some (archived_tasks e, set_archived_tasks e)
             else None in
      match chosen with
      | None => (out ++ [Say "Invalid option."], Ok p)
      | Some ([], _) => (out ++ [Say "No tasks to sort."], Ok p)
      | Some (task_list, store) =>
          let out := out ++ sort_menu in
          let sorted :=
            if String.eqb option "1"
            then Some (list_sort deadline_key_lt by_deadline task_list)
            else if String.eqb option "2"
            then Some (list_sort (fun a b => Ok (a <? b)) by_priority task_list)
            else if String.eqb option "3"
            then Some (list_sort (fun a b => Ok (negb a && b)) by_completed
                                 task_list)
            else if String.eqb option "4"
            then Some (list_sort (fun a b => Ok (a <? b)%float) by_budget
                                 task_list)
            else None in
          match sorted with
          | None => (out ++ [Say "Invalid choice."], Ok p)
          | Some (spoken, Raise ex) => (out ++ spoken, Raise ex)
          | Some (spoken, Ok l) =>
              (out ++ spoken ++ [Say "Tasks sorted."],
               Ok (update_event name (store l) p))
          end
      end
  end.

(** ** Budget summary *)

(** [int(x)] on a float: truncation toward zero. *)
Definition py_int (f : float) : exc Z :=
  match Prim2SF f with
  | S754_nan => Raise ValueError
  | S754_infinity _ => Raise OverflowError
  | S754_zero _ => Ok 0
  | S754_finite s m e =>
      let a := Z.shiftl (Z.pos m) e in Ok (if s then - a else a)
  end.

Section Budget.
(** [float(s)] on a string, [None] when it raises [ValueError]; Python's
    parser of float literals is not part of the repository. *)
Variable float_of_string : string -> option float.

(** [float(v)] *)
Definition py_float (v : pyval) : exc float :=
  match v with
  | PNone => Raise TypeError
  | PFloat f => Ok f
  | PStr s =>
      match float_of_string s with
      | Some f => Ok f
      | None => Raise ValueError
      end
  end.

(** The loop over [e["tasks"]], from the running total [total_task]. *)
Fixpoint sum_task_budgets (ts : list task) (total_task : float)
  : list line * exc float :=
  match ts with
  | [] => ([], Ok total_task)
  | t :: r =>
      match py_float (task_budget t) with
      | Ok f => sum_task_budgets r (total_task + f)%float
      | Raise ValueError =>
          let '(o, res) := sum_task_budgets r total_task in
          (InvalidBudgetInTask (task_text t) :: o, res)
      | Raise ex => ([], Raise ex)
      end
  end.

(** [EventPlanner.view_event_budget_summary] *)
Definition view_event_budget_summary (name : string) (p : planner)
  : list line * exc unit :=
  match get_event name p with
  | (None, out) => (out, Ok tt)
  | (Some e, out) =>
      match sum_task_budgets (tasks e) 0%float with
      | (warn, Raise ex) => (out ++ warn, Raise ex)
      | (warn, Ok total_task) =>
          match budget e with
          | PFloat event_budget =>
              let remaining := (event_budget - total_task)%float in
              let out :=
                out ++ warn
                  ++ [BudgetSummaryFor name; EventBudget event_budget;
                      TaskBudgetUsed total_task]
                  ++ [if (0 <=? remaining)%float
                      then RemainingWithin remaining
                      else OverBudgetBy (abs remaining)] in
              if (0 <? event_budget)%float then
                match py_int ((total_task / event_budget) * 100)%float with
                | Ok used_percent =>
                    (out ++ [Usage (Z.min used_percent 999)], Ok tt)
                | Raise ex => (out, Raise ex)
                end
              else (out, Ok tt)
          | _ => (out ++ warn, Raise TypeError)
          end
      end
  end.
End Budget.

(** ** Upcoming events *)

(** One step of the recurrence: [None] when the frequency is not
    recognised (the loop is left). *)
Definition advance (freq : option string) (interval : Z) (next_date : date)
  : option (exc date) :=
  match freq with
  | None => None
  | Some f =>
      if String.eqb f "daily" then Some (add_days next_date interval)
      else if String.eqb f "weekly" then Some (add_days next_date (7 * interval))
      else if String.eqb f "monthly" then Some (add_months next_date interval)
      else if String.eqb f "yearly" then Some (add_years next_date interval)
      else None
  end.

Definition in_window (today d : date) : bool :=
  (0 <=? days_between d today) && (days_between d today <=? 7).

(** The [while next_date <= limit_date] loop, run for at most [fuel]
    iterations: [None] when the fuel runs out, else the date reported (if
    any) or the exception raised. *)
Fixpoint recurrence_loop (fuel : nat) (today limit_date : date)
  (freq : option string) (interval : Z) (next_date : date)
  : option (exc (option date)) :=
  match fuel with
  | O => None
  | S fuel' =>
      if date_leb next_date limit_date then
        if in_window today next_date then Some (Ok (Some next_date))
        else
          match advance freq interval next_date with
          | None => Some (Ok None)
          | Some (Raise ex) => Some (Raise ex)
          | Some (Ok d) => recurrence_loop fuel' today limit_date freq interval d
          end
      else Some (Ok None)
  end.

(** [limit_date]: the parsed [until] when it is truthy, else a year ahead. *)
Definition limit_date_of (today : date) (r : recurrence) : exc date :=
  match until r with
  | Some u => if String.eqb u "" then add_days today 365 else strptime u
  | None => add_days today 365
  end.

(** The body of the loop over [self.events.items()]: what is spoken for
    one event; every exception is swallowed by [except Exception]. *)
Definition upcoming_event (fuel : nat) (today : date) (name : string)
  (e : event) : option (list line) :=
  match strptime (ev_date e) with
  | Raise _ => Some []
  | Ok base_date =>
      let r := ev_recurrence e in
      if negb (enabled r) then
        if in_window today base_date then Some [UpcomingOn name (ev_date e)]
        else Some []
      else
        match limit_date_of today r with
        | Raise _ => Some []
        | Ok limit_date =>
            match recurrence_loop fuel today limit_date
                    (frequency r) (interval r) base_date with
            | None => None
            | Some (Ok (Some d)) => Some [UpcomingRecurringOn name d]
            | Some _ => Some []
            end
        end
  end.

Fixpoint upcoming_sweep (fuel : nat) (today : date)
  (items : list (string * event)) : option (list line) :=
  match items with
  | [] => Some []
  | (name, e) :: r =>
      match upcoming_event fuel today name e with
      | None => None
      | Some o =>
          match upcoming_sweep fuel today r with
          | None => None
          | Some o' => Some (o ++ o')
          end
      end
  end.

(** [EventPlanner.upcoming_events] on the day [today]; [found] is set
    exactly when the sweep spoke. *)
Definition upcoming_events (fuel : nat) (today : date) (p : planner)
  : option (list line) :=
  match upcoming_sweep fuel today (events p) with
  | None => None
  | Some o =>
      Some (Say "Events in the next seven days." :: o
              ++ match o with
                 | [] => [Say "No upcoming events."]
                 | _ => []
                 end)
  end.


(** ** More of the planner: events *)

(** What the methods below speak (or print): a [line] of the earlier
    methods, or one of their own messages. *)
Inductive spoken : Type :=
| Line (l : line)
| Numbered (i : Z) (text status : string)
    (* "{i}. {task} - {status}" *)
| TaskDue (task_name event_name deadline_text : string)
    (* "{t['task']} ({name}) due on {task_deadline}" *)
| DaysLeft (days : Z) (name : string)
    (* "{days} day(s) left until {name}." *)
| IsToday (name : string)
    (* "{name} is today!" *)
| DaysAgo (days : Z) (name : string)
    (* "{name} passed {abs(days)} day(s) ago." *)
| SortedEvent (name date_text priority_text : string).
    (* "{e} - Date: {date}, Priority: {priority}" *)

Definition set_pinned (e : event) (b : bool) : event :=
  mkevent (ev_date e) (notes e) (tags e) (category e) (priority e) (budget e)
          b (starred e) (reminder_days e) (start_time e) (end_time e)
          (ev_recurrence e) (tasks e) (archived_tasks e).

Definition set_starred (e : event) (b : bool) : event :=
  mkevent (ev_date e) (notes e) (tags e) (category e) (priority e) (budget e)
          (pinned e) b (reminder_days e) (start_time e) (end_time e)
          (ev_recurrence e) (tasks e) (archived_tasks e).

Definition set_both_tasks (e : event) (ts archived : list task) : event :=
  set_archived_tasks (set_tasks e ts) archived.

(** [EventPlanner.delete_event]; [confirm] is the answer to the yes/no
    question (asked only when the event exists). *)
Definition delete_event (name : string) (confirm : bool) (p : planner)
  : planner * list line :=
  if Dict.mem name (events p) then
    if confirm then
      (mkplanner (Dict.remove name (events p)) (archived_events p),
       [Say "Event deleted."])
    else (p, [Say "Deletion cancelled."])
  else (p, [Say "Event not found."]).

(** [EventPlanner.toggle_pin_event] *)
Definition toggle_pin_event (name : string) (p : planner)
  : planner * list line :=
  match Dict.get name (events p) with
  | Some e =>
      (update_event name (set_pinned e (negb (pinned e))) p,
       [Say "Pin status toggled."])
  | None => (p, [Say "Event not found."])
  end.

(** [EventPlanner.toggle_star_event] *)
Definition toggle_star_event (name : string) (p : planner)
  : planner * list line :=
  match Dict.get name (events p) with
  | Some e =>
      (update_event name (set_starred e (negb (starred e))) p,
       [Say "Star status toggled."])
  | None => (p, [Say "Event not found."])
  end.

(** ** More of the planner: tasks *)

(** [l.pop(n)]: the list without its element of index [n]. *)
Fixpoint remove_nth {A : Type} (n : nat) (l : list A) : list A :=
  match l, n with
  | [], _ => []
  | _ :: r, O => r
  | x :: r, S n' => x :: remove_nth n' r
  end.

Definition numbered_tasks (ts : list task) : list spoken :=
  map (fun it => Numbered (Z.of_nat (fst it)) (task_text (snd it))
                          (status (snd it)))
      (combine (seq 1 (List.length ts)) ts).

Definition listed_tasks (ts : list task) : list spoken :=
  map (fun it => Line (TaskListing (Z.of_nat (fst it)) (task_text (snd it))))
      (combine (seq 1 (List.length ts)) ts).

(** The index a task number denotes, as the task methods check it:
    [isdigit], minus one, within the list.  The number is read as ASCII
    text of at most 4300 characters, where [int] cannot raise; the
    statements about task numbers below say so where they speak of every
    input. *)
Definition chosen_index {A : Type} (index_input : string) (l : list A)
  : list spoken + nat :=
  if negb (is_digit_string index_input)
  then inl [Line (Say "Please enter a number.")]
  else
    let index := int_of_digits index_input - 1 in
    if (index <? 0) || (index >=? Z.of_nat (List.length l))
    then inl [Line (Say "Invalid task number.")]
    else inr (Z.to_nat index).

(** [EventPlanner.archive_task] *)
Definition archive_task (name index_input : string) (p : planner)
  : planner * list spoken :=
  match get_event name p with
  | (None, out) => (p, map Line out)
  | (Some e, out) =>
      match tasks e with
      | [] => (p, map Line out ++ [Line (Say "No tasks to archive.")])
      | _ =>
          let out := map Line out ++ numbered_tasks (tasks e) in
          match chosen_index index_input (tasks e) with
          | inl err => (p, out ++ err)
          | inr index =>
              match nth_error (tasks e) index with
              | None => (p, out)
              | Some t =>
                  (update_event name
                     (set_both_tasks e (remove_nth index (tasks e))
                        (archived_tasks e ++ [t])) p,
                   out ++ [Line (Say "Task archived.")])
              end
          end
      end
  end.

(** [EventPlanner.restore_archived_task] *)
Definition restore_archived_task (name index_input : string) (p : planner)
  : planner * list spoken :=
  match get_event name p with
  | (None, out) => (p, map Line out)
  | (Some e, out) =>
      match archived_tasks e with
      | [] => (p, map Line out ++ [Line (Say "No archived tasks.")])
      | _ =>
          let out := map Line out ++ listed_tasks (archived_tasks e) in
          match chosen_index index_input (archived_tasks e) with
          | inl err => (p, out ++ err)
          | inr index =>
              match nth_error (archived_tasks e) index with
              | None => (p, out)
              | Some t =>
                  (update_event name
                     (set_both_tasks e (tasks e ++ [t])
                        (remove_nth index (archived_tasks e))) p,
                   out ++ [Line (Say "Task restored.")])
              end
          end
      end
  end.

(** [EventPlanner.delete_task]; [confirm] is the answer to "Are you
    sure?". *)
Definition delete_task (name index_input : string) (confirm : bool)
  (p : planner) : planner * list spoken :=
  match get_event name p with
  | (None, out) => (p, map Line out)
  | (Some e, out) =>
      match tasks e with
      | [] => (p, map Line out ++ [Line (Say "No tasks to delete.")])
      | _ =>
          let out := map Line out ++ listed_tasks (tasks e) in
          match chosen_index index_input (tasks e) with
          | inl err => (p, out ++ err)
          | inr index =>
              if confirm then
                (update_event name
                   (set_tasks e (remove_nth index (tasks e))) p,
                 out ++ [Line (Say "Task deleted.")])
              else (p, out)
          end
      end
  end.

Definition set_status (t : task) (s : string) : task :=
  mktask (task_text t) (deadline t) (task_priority t) s (task_budget t).

Definition valid_status (s : string) : bool :=
  String.eqb s "Pending" || String.eqb s "In Progress"
  || String.eqb s "Completed".

(** [EventPlanner.mark_task_progress]; [new_status] is the input once
    [.title().strip()] has been applied. *)
Definition mark_task_progress (name index_input new_status : string)
  (p : planner) : planner * list spoken :=
  match get_event name p with
  | (None, out) => (p, map Line out)
  | (Some e, out) =>
      match tasks e with
      | [] => (p, map Line out ++ [Line (Say "No tasks available.")])
      | _ =>
          let out := map Line out ++ numbered_tasks (tasks e) in
          match chosen_index index_input (tasks e) with
          | inl err => (p, out ++ err)
          | inr index =>
              match nth_error (tasks e) index with
              | None => (p, out)
              | Some t =>
                  if valid_status new_status then
                    (update_event name
                       (set_tasks e
                          (replace_nth index (set_status t new_status)
                             (tasks e))) p,
                     out ++ [Line (Say "Status updated.")])
                  else (p, out ++ [Line (Say "Invalid status.")])
              end
          end
      end
  end.

(** ** Deadlines due soon and the countdown *)

(** The body of the inner loop of [check_task_deadlines]: what is spoken
    for one task; exceptions are swallowed. *)
Definition task_due (today : date) (name : string) (t : task) : list spoken :=
  if String.eqb (deadline t) "" then []
  else
    match strptime (deadline t) with
    | Ok d =>
        if (0 <=? days_between d today) && (days_between d today <=? 3)
        then [TaskDue (task_text t) name (deadline t)]
        else []
    | Raise _ => []
    end.

(** [EventPlanner.check_task_deadlines] on the day [today]. *)
Definition check_task_deadlines (today : date) (p : planner) : list spoken :=
  let due :=
    flat_map (fun it => flat_map (task_due today (fst it)) (tasks (snd it)))
             (events p) in
  Line (Say "Tasks due in the next three days.") :: due
    ++ match due with
       | [] => [Line (Say "No urgent tasks due.")]
       | _ => []
       end.

(** [EventPlanner.countdown_to_event] on the day [today]. *)
Definition countdown_to_event (name : string) (today : date) (p : planner)
  : list spoken :=
  match get_event name p with
  | (None, out) => map Line out
  | (Some e, out) =>
      match strptime (ev_date e) with
      | Raise _ => map Line out ++ [Line (Say "Invalid date format.")]
      | Ok target =>
          let days := days_between target today in
          map Line out
            ++ [if days >? 0 then DaysLeft days name
                else if days =? 0 then IsToday name
                else DaysAgo (Z.abs days) name]
      end
  end.

(** ** Sorting events *)

(** [by_date] of [sort_events]: a date that does not parse sorts as
    midnight of the last day of year 9999, with a printed warning. *)
Definition event_by_date (p : planner) (name : string)
  : list line * exc datetime :=
  match Dict.get name (events p) with
  | None =>
      ([Say (String.append "Event "
               (String.append name " does not have a 'date' field."))],
       Ok (mkdatetime (mkdate 9999 12 31) 0))
  | Some e =>
      match strptime (ev_date e) with
      | Ok d => ([], Ok (mkdatetime d 0))
      | Raise _ =>
          ([Say (String.append "Invalid date format for event "
                   (String.append name (String.append ": " (ev_date e))))],
           Ok (mkdatetime (mkdate 9999 12 31) 0))
      end
  end.

(** [by_priority] of [sort_events] *)
Definition event_by_priority (p : planner) (name : string)
  : list line * exc Z :=
  ([], Ok (match Dict.get name (events p) with
           | Some e =>
               if String.eqb (priority e) "High" then 0
               else if String.eqb (priority e) "Medium" then 1
               else if String.eqb (priority e) "Low" then 2
               else 1
           | None => 1
           end)).

Definition event_flag (flag : event -> bool) (p : planner) (name : string)
  : list line * exc bool :=
  ([], Ok (match Dict.get name (events p) with
           | Some e => negb (flag e)
           | None => true
           end)).

Definition sort_events_menu : list line :=
  [Say "Sort Options"; Say "1. By name (A-Z)"; Say "2. By date";
   Say "3. By priority"; Say "4. Starred first"; Say "5. Pinned first"].

(** [EventPlanner.sort_events]; [option] is the input.  The events are
    only listed in sorted order, the dictionary is left as it is. *)
Definition sort_events (option : string) (p : planner) : list spoken :=
  let names := Dict.keys (events p) in
  let sorted :=
    if String.eqb option "1"
    then Some (list_sort (fun a b => Ok (String.ltb a b))
                         (fun n => ([], Ok n)) names)
    else if String.eqb option "2"
    then Some (list_sort (fun a b => Ok (datetime_ltb a b))
                         (event_by_date p) names)
    else if String.eqb option "3"
    then Some (list_sort (fun a b => Ok (a <? b)) (event_by_priority p) names)
    else if String.eqb option "4"
    then Some (list_sort (fun a b => Ok (negb a && b))
                         (event_flag starred p) names)
    else if String.eqb option "5"
    then Some (list_sort (fun a b => Ok (negb a && b))
                         (event_flag pinned p) names)
    else None in
  map Line sort_events_menu
    ++ match sorted with
       | None => [Line (Say "Invalid option.")]
       | Some (printed, Raise _) =>
           map Line printed ++ [Line (Say "Could not sort events.")]
       | Some (printed, Ok sorted_list) =>
           map Line printed
             ++ Line (Say "Here are your sorted events.")
             :: map (fun n =>
                       match Dict.get n (events p) with
                       | Some e => SortedEvent n (ev_date e) (priority e)
                       | None => Line (Say "Could not sort events.")
                       end) sorted_list
       end.

(** ** Definitions used in the statements *)

Definition cycle_ok (r : Z) : bool :=
  let '(yr, m, d) := ord2ymd_cycle r in
  (toordinal (mkdate yr m d) =? r + 1)
  && (1 <=? yr) && (yr <=? 400) && (1 <=? m) && (m <=? 12) && (1 <=? d)
  && (d <=? days_in_month yr m)
  && ((145730 <? r) || (yr <=? 399)).

Fixpoint all_from (n : nat) (start : Z) (f : Z -> bool) : bool :=
  match n with
  | O => true
  | S k => f start && all_from k (start + 1) f
  end.

Definition days_in_year (y : Z) : Z := if is_leap y then 366 else 365.

Definition valid (d : date) : Prop := valid_date d = true.

Definition known_frequency (freq : option string) : bool :=
  match freq with
  | Some f => String.eqb f "daily" || String.eqb f "weekly"
              || String.eqb f "monthly" || String.eqb f "yearly"
  | None => false
  end.

Fixpoint nth_candidate (freq : option string) (interval : Z) (base : date)
  (k : nat) : option date :=
  match k with
  | O => Some base
  | S k' =>
      match advance freq interval base with
      | Some (Ok d) => nth_candidate freq interval d k'
      | _ => None
      end
  end.

Definition mentions (name : string) (l : line) : bool :=
  match l with
  | UpcomingOn n _ => String.eqb n name
  | UpcomingRecurringOn n _ => String.eqb n name
  | _ => false
  end.

Definition fuel_bound : nat := S (Z.to_nat MAXORDINAL).

(** What one event contributes to the sweep. *)
Inductive event_report (today : date) (name : string) (e : event)
  : list line -> Prop :=
| report_nothing : event_report today name e []
| report_single base :
    enabled (ev_recurrence e) = false ->
    strptime (ev_date e) = Ok base ->
    in_window today base = true ->
    event_report today name e [UpcomingOn name (ev_date e)]
| report_recurring base limit d fuel :
    enabled (ev_recurrence e) = true ->
    strptime (ev_date e) = Ok base ->
    recurrence_loop fuel today limit (frequency (ev_recurrence e))
      (interval (ev_recurrence e)) base = Some (Ok (Some d)) ->
    event_report today name e [UpcomingRecurringOn name d].

Definition is_report (l : line) : bool :=
  match l with
  | UpcomingOn _ _ | UpcomingRecurringOn _ _ => true
  | _ => false
  end.

(** The deadline invariant of the data model: with recurrence disabled,
    every active task's deadline, when present, is a date not after the
    event's date. *)
Definition deadline_ok (e : event) (t : task) : bool :=
  String.eqb (deadline t) ""
  || match strptime (deadline t), strptime (ev_date e) with
     | Ok task_date, Ok event_date => date_leb task_date event_date
     | _, _ => false
     end.

Definition deadline_invariant (e : event) : bool :=
  enabled (ev_recurrence e) || forallb (deadline_ok e) (tasks e).

(** A deadline that is present and does not parse. *)
Definition deadline_malformed (t : task) : bool :=
  negb (String.eqb (deadline t) "")
  && match strptime (deadline t) with Ok _ => false | Raise _ => true end.

(** Python's [round(x)] on a float: the nearest integer, ties to even.
    The code does not call it; the budget claim is stated with it. *)
Definition py_round (f : float) : exc Z :=
  match Prim2SF f with
  | S754_nan => Raise ValueError
  | S754_infinity _ => Raise OverflowError
  | S754_zero _ => Ok 0
  | S754_finite s m e =>
      let a :=
        if 0 <=? e then Z.shiftl (Z.pos m) e
        else
          let q := Z.shiftr (Z.pos m) (- e) in
          let r := Z.pos m - Z.shiftl q (- e) in
          let half := Z.shiftl 1 (- e - 1) in
          if (half <? r) || ((r =? half) && Z.odd q) then q + 1 else q in
      Ok (if s then - a else a)
  end.

(** The budgets of the tasks that [float()] accepts, in task order, and
    the tasks it refuses with a [ValueError]. *)
Fixpoint parsable_budgets (float_of_string : string -> option float)
  (ts : list task) : list float :=
  match ts with
  | [] => []
  | t :: r =>
      match task_budget t with
      | PFloat f => f :: parsable_budgets float_of_string r
      | PStr s =>
          match float_of_string s with
          | Some f => f :: parsable_budgets float_of_string r
          | None => parsable_budgets float_of_string r
          end
      | PNone => parsable_budgets float_of_string r
      end
  end.

Fixpoint skipped_tasks (float_of_string : string -> option float)
  (ts : list task) : list string :=
  match ts with
  | [] => []
  | t :: r =>
      match task_budget t with
      | PStr s =>
          match float_of_string s with
          | Some _ => skipped_tasks float_of_string r
          | None => task_text t :: skipped_tasks float_of_string r
          end
      | _ => skipped_tasks float_of_string r
      end
  end.

(** The sum from left to right, starting from zero. *)
Definition float_sum (l : list float) : float :=
  fold_left PrimFloat.add l 0%float.

(** A [float()] that refuses every string: enough for budgets that are
    floats already. *)
Definition no_float_of_string (s : string) : option float := None.

(** The leap-year rule: divisible by 4, except centuries unless divisible
    by 400. *)
Definition leap_year_rule (y : Z) : Prop :=
  (4 | y) /\ (~ (100 | y) \/ (400 | y)).

(** Events and tasks with default fields, for the examples. *)
Definition plain_event (date_text : string) (b : pyval) (r : recurrence)
  (ts : list task) : event :=
  mkevent date_text "" [] "" "Medium" b false false (Some 0) None None r ts [].

Definition plain_task (text deadline_text : string) (b : pyval) : task :=
  mktask text deadline_text "Medium" "Pending" b.

(** Orders of sort keys: [b] does not sort before [a]; and [a] has a key
    equivalent to [k]. *)
Definition not_after {A K : Type} (ltb : K -> K -> bool) (a b : K * A)
  : Prop :=
  ltb (fst b) (fst a) = false.

Definition same_key {A K : Type} (ltb : K -> K -> bool) (k : K) (a : K * A)
  : bool :=
  negb (ltb (fst a) k) && negb (ltb k (fst a)).

(** The key a task sorts under by deadline when its deadline is missing
    or parses, as a [datetime]. *)
Definition deadline_or_max (t : task) : datetime :=
  if String.eqb (deadline t) "" then datetime_max
  else
    match strptime (deadline t) with
    | Ok d => mkdatetime d 0
    | Raise _ => datetime_max
    end.

(** The key of [by_deadline]. *)
Definition deadline_key (t : task) : option datetime :=
  if String.eqb (deadline t) "" then Some datetime_max
  else
    match strptime (deadline t) with
    | Ok d => Some (mkdatetime d 0)
    | Raise _ => None
    end.

(** An order on the keys of [by_deadline] that agrees with [<] where [<]
    is defined. *)
Definition deadline_key_ltb (a b : option datetime) : bool :=
  match a, b with
  | Some x, Some y => datetime_ltb x y
  | None, Some _ => true
  | _, None => false
  end.

(** The lexicographic order of [datetime]s, spelled out. *)
Definition datetime_before (a b : datetime) : Prop :=
  year (dt_date a) < year (dt_date b)
  \/ (year (dt_date a) = year (dt_date b)
      /\ (month (dt_date a) < month (dt_date b)
          \/ (month (dt_date a) = month (dt_date b)
              /\ (day (dt_date a) < day (dt_date b)
                  \/ (day (dt_date a) = day (dt_date b)
                      /\ dt_micro a < dt_micro b))))).

(** [t] sorts under a key equivalent to [dt]. *)
Definition same_deadline (dt : datetime) (t : task) : bool :=
  negb (datetime_ltb (deadline_or_max t) dt)
  && negb (datetime_ltb dt (deadline_or_max t)).

(** [b] does not sort before [a] by deadline. *)
Definition deadline_not_after (a b : task) : Prop :=
  datetime_ltb (deadline_or_max b) (deadline_or_max a) = false.

(** The pin of an event, when the event exists. *)
Definition pinned_of (name : string) (p : planner) : option bool :=
  option_map pinned (Dict.get name (events p)).

(** The key of [by_priority] and the key of [by_completed]. *)
Definition priority_rank (t : task) : Z :=
  if String.eqb (task_priority t) "High" then 0
  else if String.eqb (task_priority t) "Medium" then 1
  else if String.eqb (task_priority t) "Low" then 2
  else 1.

Definition is_completed (t : task) : bool :=
  String.eqb (status t) "Completed".

(** The key an event sorts under by date. *)
Definition event_date_key (p : planner) (name : string) : datetime :=
  match Dict.get name (events p) with
  | Some e =>
      match strptime (ev_date e) with
      | Ok d => mkdatetime d 0
      | Raise _ => mkdatetime (mkdate 9999 12 31) 0
      end
  | None => mkdatetime (mkdate 9999 12 31) 0
  end.

(** The line [sort_events] speaks for an event. *)
Definition sorted_event_line (p : planner) (name : string) : spoken :=
  match Dict.get name (events p) with
  | Some e => SortedEvent name (ev_date e) (priority e)
  | None => Line (Say "Could not sort events.")
  end.

(** Text whose characters are all ASCII. *)
Definition ascii_text (s : string) : bool :=
  forallb (fun c => (N_of_ascii c <? 128)%N) (list_ascii_of_string s).

(** The inputs on which [is_digit_string] and [int_of_digits] are
    [str.isdigit] and [int]: ASCII text, within [int]'s default limit of
    4300 characters for a decimal string. *)
Definition plain_number_input (s : string) : Prop :=
  ascii_text s = true /\ (String.length s <= 4300)%nat.

(** * Properties *)

(** ** The calendar *)

Lemma all_from_spec n f :
  forall start, all_from n start f = true ->
  forall r, start <= r < start + Z.of_nat n -> f r = true.
Proof.
  induction n as [|k IH]; intros start H r Hr; [lia|].
  simpl in H. apply andb_true_iff in H. destruct H as [H1 H2].
  destruct (Z.eq_dec r start) as [->|Hne]; [exact H1|].
  apply (IH (start + 1)); [exact H2|lia].
Qed.

Lemma is_leap_shift y q : is_leap (q * 400 + y) = is_leap y.
Proof.
  unfold is_leap.
  replace (q * 400 + y) with (y + (q * 100) * 4) at 1 by lia.
  replace (q * 400 + y) with (y + (q * 4) * 100) at 1 by lia.
  replace (q * 400 + y) with (y + q * 400) by lia.
  now rewrite !Z.mod_add by lia.
Qed.

Lemma days_before_year_shift y q :
  days_before_year (q * 400 + y) = q * 146097 + days_before_year y.
Proof.
  unfold days_before_year.
  replace ((q * 400 + y - 1) / 4) with ((y - 1) / 4 + q * 100).
  2:{ rewrite <- Z.div_add by lia. f_equal. lia. }
  replace ((q * 400 + y - 1) / 100) with ((y - 1) / 100 + q * 4).
  2:{ rewrite <- Z.div_add by lia. f_equal. lia. }
  replace ((q * 400 + y - 1) / 400) with ((y - 1) / 400 + q).
  2:{ rewrite <- Z.div_add by lia. f_equal. lia. }
  lia.
Qed.

Lemma toordinal_shift y m d q :
  toordinal (mkdate (q * 400 + y) m d) = q * 146097 + toordinal (mkdate y m d).
Proof.
  unfold toordinal, days_before_month; simpl.
  rewrite is_leap_shift, days_before_year_shift. lia.
Qed.

Lemma days_in_month_shift y m q :
  days_in_month (q * 400 + y) m = days_in_month y m.
Proof. unfold days_in_month. now rewrite is_leap_shift. Qed.

Lemma cycle_check : all_from (Z.to_nat 146097) 0 cycle_ok = true.
Proof. vm_compute. reflexivity. Qed.

Lemma cycle_ok_all r : 0 <= r < 146097 -> cycle_ok r = true.
Proof.
  intros Hr. apply (all_from_spec _ _ 0 cycle_check).
  rewrite Z2Nat.id; lia.
Qed.

Lemma toordinal_fromordinal n : toordinal (fromordinal n) = n.
Proof.
  unfold fromordinal.
  assert (Hr : 0 <= (n - 1) mod DI400Y < 146097)
    by (apply Z.mod_pos_bound; reflexivity).
  pose proof (cycle_ok_all _ Hr) as Hok. unfold cycle_ok in Hok.
  destruct (ord2ymd_cycle ((n - 1) mod DI400Y)) as [[yr m] d].
  rewrite !andb_true_iff in Hok.
  destruct Hok as [[[[[[[H _] _] _] _] _] _] _].
  apply Z.eqb_eq in H.
  rewrite toordinal_shift, H.
  pose proof (Z.div_mod (n - 1) DI400Y) as E. unfold DI400Y in *. lia.
Qed.

Lemma fromordinal_valid n :
  1 <= n <= MAXORDINAL -> valid_date (fromordinal n) = true.
Proof.
  unfold MAXORDINAL. intros Hn. unfold fromordinal.
  assert (Hr : 0 <= (n - 1) mod DI400Y < 146097)
    by (apply Z.mod_pos_bound; reflexivity).
  pose proof (cycle_ok_all _ Hr) as Hok. unfold cycle_ok in Hok.
  destruct (ord2ymd_cycle ((n - 1) mod DI400Y)) as [[yr m] d].
  rewrite !andb_true_iff, orb_true_iff in Hok.
  rewrite !Z.leb_le, Z.ltb_lt in Hok.
  destruct Hok as [[[[[[[_ H1] H2] H3] H4] H5] H6] H7].
  unfold valid_date; simpl. rewrite days_in_month_shift.
  unfold MINYEAR, MAXYEAR.
  pose proof (Z_div_mod_eq_full (n - 1) DI400Y) as E. unfold DI400Y in *.
  assert (0 <= (n - 1) / 146097 <= 24).
  { split; [apply Z.div_pos; lia|].
    enough ((n - 1) / 146097 < 25) by lia.
    apply Z.div_lt_upper_bound; lia. }
  rewrite !andb_true_iff, !Z.leb_le.
  repeat split; try assumption; lia.
Qed.

Lemma days_before_year_succ y :
  days_before_year (y + 1) = days_before_year y + days_in_year y.
Proof.
  unfold days_before_year, days_in_year, is_leap.
  replace (y + 1 - 1) with y by lia.
  pose proof (Z_div_mod_eq_full y 4). pose proof (Z.mod_pos_bound y 4).
  pose proof (Z_div_mod_eq_full y 100). pose proof (Z.mod_pos_bound y 100).
  pose proof (Z_div_mod_eq_full y 400). pose proof (Z.mod_pos_bound y 400).
  pose proof (Z_div_mod_eq_full (y-1) 4). pose proof (Z.mod_pos_bound (y-1) 4).
  pose proof (Z_div_mod_eq_full (y-1) 100). pose proof (Z.mod_pos_bound (y-1) 100).
  pose proof (Z_div_mod_eq_full (y-1) 400). pose proof (Z.mod_pos_bound (y-1) 400).
  destruct (Z.eqb_spec (y mod 4) 0), (Z.eqb_spec (y mod 100) 0),
    (Z.eqb_spec (y mod 400) 0); simpl; lia.
Qed.

Lemma days_in_year_pos y : 365 <= days_in_year y <= 366.
Proof. unfold days_in_year. destruct (is_leap y); lia. Qed.

Lemma days_before_year_mono y y' :
  y <= y' -> days_before_year y <= days_before_year y'.
Proof.
  intros H. replace y' with (y + Z.of_nat (Z.to_nat (y' - y))) by lia.
  induction (Z.to_nat (y' - y)) as [|k IH].
  - rewrite Z.add_0_r. lia.
  - replace (y + Z.of_nat (S k)) with (y + Z.of_nat k + 1) by lia.
    rewrite days_before_year_succ.
    pose proof (days_in_year_pos (y + Z.of_nat k)). lia.
Qed.

Lemma month_cases m :
  1 <= m <= 12 ->
  m = 1 \/ m = 2 \/ m = 3 \/ m = 4 \/ m = 5 \/ m = 6 \/ m = 7 \/ m = 8
  \/ m = 9 \/ m = 10 \/ m = 11 \/ m = 12.
Proof. lia. Qed.

Ltac months_simpl :=
  cbn [DAYS_BEFORE_MONTH DAYS_IN_MONTH Z.ltb Z.eqb Z.compare Pos.compare
       Pos.compare_cont Pos.eqb andb] in *.

Ltac each_month m H :=
  destruct (month_cases m H) as
    [?|[?|[?|[?|[?|[?|[?|[?|[?|[?|[?|?]]]]]]]]]]]; subst m.

Lemma day_of_year_bounds y m d :
  1 <= m <= 12 -> 1 <= d <= days_in_month y m ->
  1 <= days_before_month y m + d <= days_in_year y.
Proof.
  intros Hm Hd. unfold days_before_month, days_in_year, days_in_month in *.
  each_month m Hm; months_simpl; destruct (is_leap y); months_simpl; lia.
Qed.

Lemma day_of_year_mono y m d m' d' :
  1 <= m <= 12 -> 1 <= m' <= 12 ->
  1 <= d <= days_in_month y m -> 1 <= d' ->
  m < m' \/ (m = m' /\ d < d') ->
  days_before_month y m + d < days_before_month y m' + d'.
Proof.
  intros Hm Hm' Hd Hd' Hlt.
  unfold days_before_month, days_in_month in *.
  each_month m Hm; each_month m' Hm'; months_simpl;
    destruct (is_leap y); months_simpl; lia.
Qed.

Lemma valid_iff d :
  valid d <->
  1 <= year d <= 9999 /\ 1 <= month d <= 12
  /\ 1 <= day d <= days_in_month (year d) (month d).
Proof.
  unfold valid, valid_date, MINYEAR, MAXYEAR.
  rewrite !andb_true_iff, !Z.leb_le. tauto.
Qed.

Lemma toordinal_lt a b :
  valid a -> valid b -> date_cmp a b = Lt -> toordinal a < toordinal b.
Proof.
  rewrite !valid_iff. intros (_ & Hma & Hda) (_ & Hmb & Hdb) Hc.
  unfold date_cmp in Hc. unfold toordinal.
  destruct (Z.compare_spec (year a) (year b)) as [Ey|Ly|Gy]; try discriminate.
  - rewrite <- Ey in *.
    apply Z.add_lt_mono_l with (p := days_before_year (year a)).
    rewrite !Z.add_assoc.
    enough (days_before_month (year a) (month a) + day a
            < days_before_month (year a) (month b) + day b) by lia.
    apply day_of_year_mono; try lia.
    destruct (Z.compare_spec (month a) (month b)); try discriminate.
    + right. split; [assumption|]. now apply Z.compare_lt_iff.
    + now left.
  - pose proof (day_of_year_bounds _ _ _ Hma Hda).
    pose proof (day_of_year_bounds _ _ _ Hmb Hdb).
    pose proof (days_before_year_succ (year a)).
    pose proof (days_before_year_mono (year a + 1) (year b)). lia.
Qed.

Lemma date_cmp_eq a b : date_cmp a b = Eq -> a = b.
Proof.
  unfold date_cmp. destruct a as [ya ma da], b as [yb mb db]; simpl.
  destruct (Z.compare_spec ya yb); try discriminate.
  destruct (Z.compare_spec ma mb); try discriminate.
  destruct (Z.compare_spec da db); try discriminate.
  intros _. congruence.
Qed.

Lemma toordinal_le a b :
  valid a -> valid b -> date_leb a b = true -> toordinal a <= toordinal b.
Proof.
  intros Ha Hb. unfold date_leb.
  destruct (date_cmp a b) eqn:E; try discriminate; intros _.
  - apply date_cmp_eq in E. subst. lia.
  - pose proof (toordinal_lt a b Ha Hb E). lia.
Qed.

Lemma toordinal_range d : valid d -> 1 <= toordinal d <= MAXORDINAL.
Proof.
  intros H. pose proof H as H'. apply valid_iff in H' as (Hy & Hm & Hd).
  unfold toordinal.
  pose proof (day_of_year_bounds _ _ _ Hm Hd).
  pose proof (days_before_year_mono 1 (year d)).
  pose proof (days_before_year_mono (year d + 1) 10000).
  pose proof (days_before_year_succ (year d)).
  change (days_before_year 1) with 0 in *.
  change (days_before_year 10000) with 3652059 in *.
  unfold MAXORDINAL. lia.
Qed.

(** ** The recurrence loop and the sweep of upcoming events *)

Lemma make_date_ok y m d r :
  make_date y m d = Ok r -> r = mkdate y m d /\ valid r.
Proof.
  unfold make_date, valid.
  destruct (fits_c_int y && fits_c_int m && fits_c_int d); [|discriminate].
  destruct (valid_date (mkdate y m d)) eqn:E; [|discriminate].
  intros [= <-]. auto.
Qed.

Lemma strptime_valid s d : strptime s = Ok d -> valid d.
Proof.
  unfold strptime. intros H.
  repeat match type of H with
         | match ?x with _ => _ end = _ => destruct x; try discriminate
         | (if ?x then _ else _) = _ => destruct x; try discriminate
         end.
  now apply make_date_ok in H.
Qed.

Lemma add_days_ok d k r :
  add_days d k = Ok r -> valid r /\ toordinal r = toordinal d + k.
Proof.
  unfold add_days. destruct (Z.abs k >? 999999999); [discriminate|].
  destruct ((0 <? toordinal d + k) && (toordinal d + k <=? MAXORDINAL)) eqn:E;
    [|discriminate].
  intros [= <-]. apply andb_true_iff in E as [E1 E2].
  apply Z.ltb_lt in E1. apply Z.leb_le in E2.
  split; [apply fromordinal_valid; lia|apply toordinal_fromordinal].
Qed.

Lemma add_months_ok d n r :
  add_months d n = Ok r ->
  valid r /\ year r * 12 + month r = year d * 12 + month d + n.
Proof.
  unfold add_months.
  set (mth := month d - 1 + n).
  set (dy := Z.min _ _).
  intros H.
  assert (H' : make_date (year d + mth / 12) (mth mod 12 + 1) dy = Ok r).
  { destruct (make_date (year d + mth / 12) (mth mod 12 + 1) dy) as [x|[]];
      congruence. }
  apply make_date_ok in H' as [-> Hv]. split; [exact Hv|]. simpl.
  pose proof (Z_div_mod_eq_full mth 12). unfold mth in *. lia.
Qed.

Lemma add_years_ok d n r :
  add_years d n = Ok r -> valid r /\ year r = year d + n.
Proof.
  unfold add_years. intros H.
  destruct (make_date (year d + n) (month d) (day d)) as [x|[]] eqn:E.
  - injection H as <-. now apply make_date_ok in E as [-> Hv].
  - now apply make_date_ok in H as [-> Hv].
  - discriminate.
  - discriminate.
Qed.

Lemma advance_known freq interval d :
  known_frequency freq = false -> advance freq interval d = None.
Proof.
  unfold known_frequency, advance. destruct freq as [f|]; [|reflexivity].
  rewrite !orb_false_iff. intros [[[-> ->] ->] ->]. reflexivity.
Qed.

Lemma advance_progress freq interval d r :
  valid d -> 1 <= interval -> advance freq interval d = Some (Ok r) ->
  valid r /\ toordinal d < toordinal r.
Proof.
  intros Hd Hi. unfold advance. destruct freq as [f|]; [|discriminate].
  remember (7 * interval) as k eqn:Ek.
  destruct (String.eqb f "daily").
  { intros H; injection H as H. apply add_days_ok in H as [Hv Ho]. split; [exact Hv|lia]. }
  destruct (String.eqb f "weekly").
  { intros H; injection H as H. apply add_days_ok in H as [Hv Ho]. split; [exact Hv|lia]. }
  destruct (String.eqb f "monthly").
  { intros H; injection H as H. apply add_months_ok in H as [Hv Ho]. split; [exact Hv|].
    apply toordinal_lt; try assumption.
    apply valid_iff in Hd as (_ & Hm & _).
    pose proof Hv as Hv'. apply valid_iff in Hv' as (_ & Hm' & _).
    unfold date_cmp.
    destruct (Z.compare_spec (year d) (year r)); try reflexivity; try lia.
    destruct (Z.compare_spec (month d) (month r)); try reflexivity; lia. }
  destruct (String.eqb f "yearly"); [|discriminate].
  intros H; injection H as H. apply add_years_ok in H as [Hv Ho]. split; [exact Hv|].
  apply toordinal_lt; try assumption. unfold date_cmp.
  destruct (Z.compare_spec (year d) (year r)); try reflexivity; lia.
Qed.

Lemma recurrence_loop_terminates today limit freq interval :
  1 <= interval -> valid limit ->
  forall fuel next, valid next ->
    (Z.to_nat (toordinal limit - toordinal next + 1) < fuel)%nat ->
    exists r, recurrence_loop fuel today limit freq interval next = Some r.
Proof.
  intros Hi Hl. induction fuel as [|fuel IH]; intros next Hn Hf; [lia|].
  simpl. destruct (date_leb next limit) eqn:Hle; [|eauto].
  destruct (in_window today next); [eauto|].
  destruct (advance freq interval next) as [[d|ex]|] eqn:Ha; eauto.
  apply advance_progress in Ha as [Hv Ho]; try assumption.
  apply toordinal_le in Hle; try assumption.
  apply IH; [assumption|lia].
Qed.

Lemma recurrence_loop_fuel_bound today limit freq interval next :
  1 <= interval -> valid limit -> valid next ->
  forall fuel, (fuel_bound <= fuel)%nat ->
    exists r, recurrence_loop fuel today limit freq interval next = Some r.
Proof.
  intros Hi Hl Hn fuel Hf. apply recurrence_loop_terminates; try assumption.
  pose proof (toordinal_range _ Hl). pose proof (toordinal_range _ Hn).
  unfold fuel_bound in Hf. lia.
Qed.

Lemma recurrence_loop_more_fuel today limit freq interval :
  forall fuel fuel' next r,
    recurrence_loop fuel today limit freq interval next = Some r ->
    (fuel <= fuel')%nat ->
    recurrence_loop fuel' today limit freq interval next = Some r.
Proof.
  induction fuel as [|fuel IH]; intros fuel' next r H Hf; [discriminate|].
  destruct fuel' as [|fuel']; [lia|]. simpl in *.
  destruct (date_leb next limit); [|exact H].
  destruct (in_window today next); [exact H|].
  destruct (advance freq interval next) as [[d|ex]|]; try exact H.
  apply (IH fuel'); [exact H|lia].
Qed.

Lemma recurrence_loop_reports today limit freq interval :
  forall fuel next d,
    recurrence_loop fuel today limit freq interval next = Some (Ok (Some d)) ->
    exists k,
      nth_candidate freq interval next k = Some d
      /\ in_window today d = true
      /\ date_leb d limit = true
      /\ forall j, (j < k)%nat ->
           exists dj, nth_candidate freq interval next j = Some dj
                      /\ in_window today dj = false.
Proof.
  induction fuel as [|fuel IH]; intros next d H; [discriminate|].
  simpl in H.
  destruct (date_leb next limit) eqn:Hle; [|discriminate].
  destruct (in_window today next) eqn:Hw.
  - injection H as <-. exists O. repeat split; auto. intros j Hj. lia.
  - destruct (advance freq interval next) as [[d'|ex]|] eqn:Ha;
      try discriminate.
    apply IH in H as (k & Hk & Hin & Hl & Hbefore).
    exists (S k). simpl. rewrite Ha. repeat split; auto.
    intros [|j] Hj.
    + exists next. simpl. auto.
    + simpl. rewrite Ha. apply Hbefore. lia.
Qed.

Lemma in_window_iff today d :
  in_window today d = true <-> 0 <= days_between d today <= 7.
Proof.
  unfold in_window. rewrite andb_true_iff, !Z.leb_le. tauto.
Qed.

Lemma upcoming_event_report fuel today name e o :
  upcoming_event fuel today name e = Some o -> event_report today name e o.
Proof.
  unfold upcoming_event.
  destruct (strptime (ev_date e)) as [base|ex] eqn:Eb.
  2:{ intros [= <-]. constructor. }
  destruct (enabled (ev_recurrence e)) eqn:En; simpl.
  - destruct (limit_date_of today (ev_recurrence e)) as [limit|ex].
    2:{ intros [= <-]. constructor. }
    destruct (recurrence_loop _ _ _ _ _ _) as [[[d|]|ex]|] eqn:El;
      intros [= <-]; try constructor.
    eapply report_recurring; eauto.
  - destruct (in_window today base) eqn:Ew; intros [= <-].
    + eapply report_single; eauto.
    + constructor.
Qed.

Lemma upcoming_event_single fuel today name e base :
  enabled (ev_recurrence e) = false ->
  strptime (ev_date e) = Ok base ->
  upcoming_event fuel today name e
  = Some (if in_window today base then [UpcomingOn name (ev_date e)] else []).
Proof.
  intros En Eb. unfold upcoming_event. rewrite Eb, En. simpl.
  now destruct (in_window today base).
Qed.

Lemma event_report_mentions today name e o name' :
  event_report today name e o ->
  (List.length (filter (mentions name') o) <= 1)%nat
  /\ (name' <> name -> filter (mentions name') o = []).
Proof.
  intros H. destruct H; simpl.
  - split; auto.
  - destruct (String.eqb_spec name name'); simpl; split; auto; congruence.
  - destruct (String.eqb_spec name name'); simpl; split; auto; congruence.
Qed.

Lemma upcoming_sweep_in fuel today :
  forall items o l,
    upcoming_sweep fuel today items = Some o ->
    (In l o <->
     exists name e o', In (name, e) items
                       /\ upcoming_event fuel today name e = Some o'
                       /\ In l o').
Proof.
  induction items as [|[name e] r IH]; intros o l H; simpl in H.
  - injection H as <-. split; [intros []|intros (? & ? & ? & [] & _)].
  - destruct (upcoming_event fuel today name e) as [o1|] eqn:E1;
      [|discriminate].
    destruct (upcoming_sweep fuel today r) as [o2|] eqn:E2; [|discriminate].
    injection H as <-. rewrite in_app_iff, (IH o2 l eq_refl). split.
    + intros [Hl|(n & e' & o' & Hin & He & Hl)].
      * exists name, e, o1. simpl. auto.
      * exists n, e', o'. simpl. auto.
    + intros (n & e' & o' & [Heq|Hin] & He & Hl).
      * injection Heq as <- <-. rewrite E1 in He. injection He as <-. auto.
      * right. exists n, e', o'. auto.
Qed.

Lemma upcoming_sweep_mentions fuel today name :
  forall items o,
    NoDup (Dict.keys items) ->
    upcoming_sweep fuel today items = Some o ->
    (List.length (filter (mentions name) o) <= 1)%nat
    /\ (~ In name (Dict.keys items) -> filter (mentions name) o = []).
Proof.
  induction items as [|[n e] r IH]; intros o Hnd H; simpl in H.
  - injection H as <-. simpl. auto.
  - destruct (upcoming_event fuel today n e) as [o1|] eqn:E1; [|discriminate].
    destruct (upcoming_sweep fuel today r) as [o2|] eqn:E2; [|discriminate].
    injection H as <-. simpl in Hnd. inversion Hnd as [|? ? Hnot Hnd']; subst.
    destruct (IH o2 Hnd' eq_refl) as [IH1 IH2].
    apply upcoming_event_report in E1.
    destruct (event_report_mentions today n e o1 name E1) as [R1 R2].
    rewrite filter_app, length_app.
    destruct (string_dec name n) as [->|Hne].
    + rewrite (IH2 Hnot). simpl. split; [lia|].
      intros Hc. exfalso. apply Hc. simpl. auto.
    + rewrite (R2 Hne). simpl. split; [exact IH1|].
      intros Hc. apply IH2. intros Hin. apply Hc. simpl. auto.
Qed.

Lemma upcoming_sweep_terminates fuel today :
  (fuel_bound <= fuel)%nat ->
  forall items,
    (forall name e, In (name, e) items ->
       enabled (ev_recurrence e) = true -> 1 <= interval (ev_recurrence e)) ->
    exists o, upcoming_sweep fuel today items = Some o.
Proof.
  intros Hf. induction items as [|[n e] r IH]; intros Hint; simpl; [eauto|].
  assert (He : exists o1, upcoming_event fuel today n e = Some o1).
  { unfold upcoming_event.
    destruct (strptime (ev_date e)) as [base|ex] eqn:Eb; [|eauto].
    destruct (enabled (ev_recurrence e)) eqn:En; simpl.
    2:{ destruct (in_window today base); eauto. }
    destruct (limit_date_of today (ev_recurrence e)) as [limit|ex] eqn:El;
      [|eauto].
    assert (Hl : valid limit).
    { unfold limit_date_of in El.
      destruct (until (ev_recurrence e)) as [u|].
      - destruct (String.eqb u "").
        + now apply add_days_ok in El.
        + now apply strptime_valid in El.
      - now apply add_days_ok in El. }
    destruct (recurrence_loop_fuel_bound today limit
                (frequency (ev_recurrence e)) (interval (ev_recurrence e)) base)
      with (fuel := fuel) as [res Hres]; auto.
    { apply (Hint n e); simpl; auto. }
    { eapply strptime_valid; eauto. }
    rewrite Hres. destruct res as [[d|]|ex]; eauto. }
  destruct He as [o1 ->].
  destruct IH as [o2 ->]; [|eauto].
  intros name e' Hin. apply (Hint name e'). simpl. auto.
Qed.

Lemma keys_unique {V : Type} (d : Dict.t V) k v1 v2 :
  NoDup (Dict.keys d) -> In (k, v1) d -> In (k, v2) d -> v1 = v2.
Proof.
  induction d as [|[k' v'] r IH]; simpl; intros Hnd H1 H2; [contradiction|].
  inversion Hnd as [|? ? Hnot Hnd']; subst.
  destruct H1 as [H1|H1], H2 as [H2|H2].
  - congruence.
  - injection H1 as -> ->. exfalso. apply Hnot.
    change k with (fst (k, v2)). now apply in_map.
  - injection H2 as -> ->. exfalso. apply Hnot.
    change k with (fst (k, v1)). now apply in_map.
  - now apply IH.
Qed.

Lemma upcoming_events_out fuel today p out :
  upcoming_events fuel today p = Some out ->
  exists o,
    upcoming_sweep fuel today (events p) = Some o
    /\ (forall l, is_report l = true -> (In l out <-> In l o))
    /\ (forall name, filter (mentions name) out = filter (mentions name) o).
Proof.
  unfold upcoming_events.
  destruct (upcoming_sweep fuel today (events p)) as [o|]; [|discriminate].
  intros [= <-]. exists o. split; [reflexivity|]. split.
  - intros l Hl. simpl. rewrite in_app_iff. split.
    + intros [H|[H|H]]; auto.
      * subst l. discriminate.
      * destruct o; [|contradiction].
        destruct H as [H|[]]. subst l. discriminate.
    + auto.
  - intros name. simpl. rewrite filter_app.
    destruct o; simpl; [reflexivity|]. now rewrite app_nil_r.
Qed.

(** C7: in a sweep over events with unique names whose recurrence rules
    have an interval of at least one, with enough fuel for the longest
    loop: the sweep returns; a non-recurring event whose date parses is
    reported exactly when its date is 0 to 7 days after today; no event is
    reported more than once; and a recurring event that is reported is
    reported on the first of its candidate dates that lies in the window
    (every earlier candidate lies outside it). *)
Theorem upcoming_events_window (today : date) (p : planner) (fuel : nat) :
  NoDup (Dict.keys (events p)) ->
  (forall name e, In (name, e) (events p) ->
     enabled (ev_recurrence e) = true -> 1 <= interval (ev_recurrence e)) ->
  (fuel_bound <= fuel)%nat ->
  exists out,
    upcoming_events fuel today p = Some out
    /\ (forall name e base,
          In (name, e) (events p) ->
          enabled (ev_recurrence e) = false ->
          strptime (ev_date e) = Ok base ->
          (In (UpcomingOn name (ev_date e)) out
           <-> 0 <= days_between base today <= 7))
    /\ (forall name, (List.length (filter (mentions name) out) <= 1)%nat)
    /\ (forall name d,
          In (UpcomingRecurringOn name d) out ->
          exists e base k,
            In (name, e) (events p)
            /\ enabled (ev_recurrence e) = true
            /\ strptime (ev_date e) = Ok base
            /\ nth_candidate (frequency (ev_recurrence e))
                 (interval (ev_recurrence e)) base k = Some d
            /\ in_window today d = true
            /\ forall j, (j < k)%nat ->
                 exists dj,
                   nth_candidate (frequency (ev_recurrence e))
                     (interval (ev_recurrence e)) base j = Some dj
                   /\ in_window today dj = false).
Proof.
  intros Hnd Hint Hf.
  destruct (upcoming_sweep_terminates fuel today Hf (events p) Hint)
    as [o Ho].
  assert (Hout : exists out, upcoming_events fuel today p = Some out).
  { unfold upcoming_events. rewrite Ho. eauto. }
  destruct Hout as [out Hout]. exists out. split; [exact Hout|].
  destruct (upcoming_events_out _ _ _ _ Hout) as (o' & Ho' & Hin & Hfil).
  rewrite Ho in Ho'. injection Ho' as <-.
  split; [|split].
  - intros name e base He En Eb.
    rewrite (Hin (UpcomingOn name (ev_date e)) eq_refl),
      (upcoming_sweep_in _ _ _ _ _ Ho), <- in_window_iff.
    split.
    + intros (n & e' & o' & Hi & Hev & Hl).
      apply upcoming_event_report in Hev.
      destruct Hev as [|base' En' Eb' Hw|base' limit d fuel' En' Eb' Hloop].
      * contradiction.
      * destruct Hl as [Hl|[]]. injection Hl as -> _.
        rewrite (keys_unique _ _ _ _ Hnd He Hi) in Eb.
        congruence.
      * destruct Hl as [Hl|[]]. discriminate.
    + intros Hw. exists name, e. eexists. split; [exact He|].
      rewrite (upcoming_event_single _ _ _ _ _ En Eb), Hw.
      split; [reflexivity|]. simpl. auto.
  - intros name. rewrite Hfil.
    now apply (upcoming_sweep_mentions fuel today name (events p) o).
  - intros name d Hd.
    apply (Hin (UpcomingRecurringOn name d) eq_refl) in Hd.
    apply (upcoming_sweep_in _ _ _ _ _ Ho) in Hd
      as (n & e' & o' & Hi & Hev & Hl).
    apply upcoming_event_report in Hev.
    destruct Hev as [|base' En' Eb' Hw|base' limit d' fuel' En' Eb' Hloop].
    + contradiction.
    + destruct Hl as [Hl|[]]. discriminate.
    + destruct Hl as [Hl|[]]. injection Hl as -> ->.
      apply recurrence_loop_reports in Hloop as (k & Hk & Hw & _ & Hbefore).
      exists e', base', k. auto 10.
Qed.

Lemma upcoming_events_window_witness :
  let p :=
    mkplanner
      [("party", plain_event "2025-01-12" (PFloat 0) no_recurrence []);
       ("standup",
        plain_event "2024-12-01" (PFloat 0)
          (mkrecurrence true (Some "daily") 1 (Some "2025-12-31")) [])] [] in
  exists out,
    upcoming_events fuel_bound (mkdate 2025 1 10) p = Some out
    /\ In (UpcomingOn "party" "2025-01-12") out
    /\ forall name, (List.length (filter (mentions name) out) <= 1)%nat.
Proof.
  intros p.
  destruct (upcoming_events_window (mkdate 2025 1 10) p fuel_bound)
    as (out & Hout & Hsingle & Honce & _).
  - repeat constructor; simpl; intuition discriminate.
  - intros name e [H|[H|[]]]; injection H as <- <-; simpl; intros; lia.
  - apply le_n.
  - exists out. split; [exact Hout|]. split; [|exact Honce].
    apply (Hsingle "party"
             (plain_event "2025-01-12" (PFloat 0) no_recurrence [])
             (mkdate 2025 1 12)); [simpl; auto|reflexivity|reflexivity|].
    vm_compute. split; discriminate.
Defined.

(** ** C9: a frequency that is not recognised *)

Lemma recurrence_loop_unknown fuel today limit freq interval base :
  known_frequency freq = false ->
  recurrence_loop (S fuel) today limit freq interval base
  = Some (Ok (if date_leb base limit && in_window today base
              then Some base else None)).
Proof.
  intros Hk. simpl. rewrite (advance_known _ _ _ Hk).
  destruct (date_leb base limit), (in_window today base); reflexivity.
Qed.

(** C9, as the code has it: with a frequency other than daily, weekly,
    monthly and yearly the loop looks at the base date only.  The event is
    reported, once and on its base date, exactly when that date is not
    after the limit date and lies in the window; one iteration suffices,
    and nothing is raised to the caller (an unusable [until] only silences
    the event). *)
Theorem unknown_frequency_reports_base_date_only
  (fuel : nat) (today : date) (name : string) (e : event) (base : date) :
  enabled (ev_recurrence e) = true ->
  known_frequency (frequency (ev_recurrence e)) = false ->
  strptime (ev_date e) = Ok base ->
  (forall limit,
     limit_date_of today (ev_recurrence e) = Ok limit ->
     upcoming_event (S fuel) today name e
     = Some (if date_leb base limit && in_window today base
             then [UpcomingRecurringOn name base] else []))
  /\ (forall ex,
        limit_date_of today (ev_recurrence e) = Raise ex ->
        upcoming_event (S fuel) today name e = Some []).
Proof.
  intros En Hk Eb. split.
  - intros limit El. unfold upcoming_event.
    rewrite Eb, En, El. cbn [negb].
    rewrite (recurrence_loop_unknown _ _ _ _ _ _ Hk).
    destruct (date_leb base limit && in_window today base); reflexivity.
  - intros ex El. unfold upcoming_event. rewrite Eb, En, El. reflexivity.
Qed.

Lemma unknown_frequency_witness :
  upcoming_event 1 (mkdate 2025 1 10) "review"
    (plain_event "2025-03-01" (PFloat 0)
       (mkrecurrence true (Some "hourly") 1 (Some "2025-12-31")) [])
  = Some [].
Proof.
  exact (proj1 (unknown_frequency_reports_base_date_only
                  0 (mkdate 2025 1 10) "review"
                  (plain_event "2025-03-01" (PFloat 0)
                     (mkrecurrence true (Some "hourly") 1 (Some "2025-12-31"))
                     [])
                  (mkdate 2025 3 1) eq_refl eq_refl eq_refl)
               (mkdate 2025 12 31) eq_refl).
Defined.

(** C9 as stated fails: an event whose frequency is not recognised is
    reported when its base date lies in the window. *)
Lemma unknown_frequency_is_reported :
  known_frequency (Some "hourly") = false
  /\ upcoming_event 1 (mkdate 2025 1 10) "review"
       (plain_event "2025-01-11" (PFloat 0)
          (mkrecurrence true (Some "hourly") 1 (Some "2025-12-31")) [])
     = Some [UpcomingRecurringOn "review" (mkdate 2025 1 11)].
Proof. split; reflexivity. Qed.

(** ** C1: the "No end" sentinel *)

Lemma strptime_no_end : strptime "No end" = Raise ValueError.
Proof. reflexivity. Qed.

(** C1 (the code departs from the claim): a recurring event whose [until]
    is the sentinel "No end" is never reported, whatever its dates, because
    the sentinel is truthy and [strptime] refuses it; the year-long horizon
    is used only when [until] is missing or empty. *)
Theorem no_end_sentinel_is_never_reported
  (fuel : nat) (today : date) (name : string) (e : event) :
  enabled (ev_recurrence e) = true ->
  until (ev_recurrence e) = Some "No end" ->
  upcoming_event fuel today name e = Some [].
Proof.
  intros En Hu. unfold upcoming_event.
  destruct (strptime (ev_date e)) as [base|ex]; [|reflexivity].
  rewrite En. cbn [negb]. unfold limit_date_of. rewrite Hu.
  reflexivity.
Qed.

Lemma no_end_sentinel_witness :
  upcoming_event 400 (mkdate 2025 1 10) "standup"
    (plain_event "2025-01-10" (PFloat 0)
       (mkrecurrence true (Some "daily") 1 (Some "No end")) [])
  = Some []
  /\ upcoming_event 400 (mkdate 2025 1 10) "standup"
       (plain_event "2025-01-10" (PFloat 0)
          (mkrecurrence true (Some "daily") 1 None) [])
     = Some [UpcomingRecurringOn "standup" (mkdate 2025 1 10)].
Proof.
  split.
  - exact (no_end_sentinel_is_never_reported 400 (mkdate 2025 1 10) "standup"
             (plain_event "2025-01-10" (PFloat 0)
                (mkrecurrence true (Some "daily") 1 (Some "No end")) [])
             eq_refl eq_refl).
  - reflexivity.
Defined.

(** ** C6: adding months *)

Lemma is_leap_rule y : is_leap y = true <-> leap_year_rule y.
Proof.
  unfold is_leap, leap_year_rule.
  rewrite andb_true_iff, orb_true_iff, negb_true_iff, Z.eqb_neq, !Z.eqb_eq.
  rewrite <- !Z.mod_divide by lia. tauto.
Qed.

Lemma add_months_table y m :
  1 <= m <= 12 ->
  nth (Z.to_nat (m - 1))
    [31;
     if (y mod 4 =? 0) && (negb (y mod 100 =? 0) || (y mod 400 =? 0))
     then 29 else 28;
     31; 30; 31; 30; 31; 31; 30; 31; 30; 31] 0
  = days_in_month y m.
Proof.
  intros Hm. unfold days_in_month. fold (is_leap y).
  each_month m Hm; reflexivity.
Qed.

Lemma days_in_month_bounds y m :
  1 <= m <= 12 -> 28 <= days_in_month y m <= 31.
Proof.
  intros Hm. unfold days_in_month.
  each_month m Hm; try lia; destruct (is_leap y); lia.
Qed.

Lemma fits_c_int_iff z :
  fits_c_int z = true <-> -2147483648 <= z <= 2147483647.
Proof. unfold fits_c_int. rewrite andb_true_iff, !Z.leb_le. tauto. Qed.

Lemma valid_date_false y m d :
  valid_date (mkdate y m d) = false <->
  ~ (1 <= y <= 9999 /\ 1 <= m <= 12 /\ 1 <= d <= days_in_month y m).
Proof.
  rewrite <- not_true_iff_false.
  change (valid_date (mkdate y m d) = true) with (valid (mkdate y m d)).
  now rewrite valid_iff.
Qed.

Lemma make_date_valid y m d :
  1 <= y <= 9999 -> 1 <= m <= 12 -> 1 <= d <= days_in_month y m ->
  make_date y m d = Ok (mkdate y m d).
Proof.
  intros Hy Hm Hd. unfold make_date.
  pose proof (days_in_month_bounds y m Hm) as Hdim.
  assert (Hf : fits_c_int y && fits_c_int m && fits_c_int d = true).
  { rewrite !andb_true_iff, !fits_c_int_iff. lia. }
  assert (H : valid (mkdate y m d)) by (apply valid_iff; simpl; auto).
  unfold valid in H. now rewrite Hf, H.
Qed.

Lemma make_date_invalid y m d :
  -2147483648 <= y <= 2147483647 -> 1 <= m <= 12 -> 1 <= d <= 31 ->
  ~ (1 <= y <= 9999 /\ 1 <= m <= 12 /\ 1 <= d <= days_in_month y m) ->
  make_date y m d = Raise ValueError.
Proof.
  intros Hy Hm Hd H. unfold make_date.
  assert (Hf : fits_c_int y && fits_c_int m && fits_c_int d = true).
  { rewrite !andb_true_iff, !fits_c_int_iff. lia. }
  apply valid_date_false in H. now rewrite Hf, H.
Qed.

Lemma make_date_overflow y m d :
  fits_c_int y = false -> make_date y m d = Raise OverflowError.
Proof. intros H. unfold make_date. now rewrite H. Qed.

Lemma add_months_cases (d : date) (n : Z) :
  valid d ->
  let y := year d + (month d - 1 + n) / 12 in
  let m := (month d - 1 + n) mod 12 + 1 in
  1 <= m <= 12
  /\ (1 <= y <= 9999 ->
      add_months d n = Ok (mkdate y m (Z.min (day d) (days_in_month y m))))
  /\ (~ 1 <= y <= 9999 ->
      add_months d n
      = Raise (if fits_c_int y then ValueError else OverflowError)).
Proof.
  intros Hd y m.
  assert (Hm : 1 <= m <= 12).
  { unfold m. pose proof (Z.mod_pos_bound (month d - 1 + n) 12). lia. }
  split; [exact Hm|].
  apply valid_iff in Hd as (_ & _ & Hday).
  pose proof (days_in_month_bounds y m Hm) as Hdim.
  assert (E : add_months d n
              = make_date y m (Z.min (day d) (days_in_month y m))).
  { unfold add_months. fold y. fold m. rewrite (add_months_table y m Hm).
    destruct (make_date y m (Z.min (day d) (days_in_month y m))) as [r|[]];
      reflexivity. }
  rewrite E. split; intros Hy.
  - apply make_date_valid; lia.
  - destruct (fits_c_int y) eqn:Ef.
    + apply fits_c_int_iff in Ef. apply make_date_invalid; lia.
    + now apply make_date_overflow.
Qed.

(** C6, as the code has it: the target month is [(month - 1 + n) mod 12]
    (counted from 1) with the year carried, the day is clamped to the last
    day of the target month under the leap-year rule, and the shift is by
    exactly [n] months.  The call returns that date when the target year is
    within 1..9999, the years [datetime.date] supports.  Otherwise it
    raises: [ValueError] while the target year fits a C [int], and
    [OverflowError], which the method does not catch, beyond. *)
Theorem add_months_clamps_within_supported_years (d : date) (n : Z) :
  valid d ->
  let y := year d + (month d - 1 + n) / 12 in
  let m := (month d - 1 + n) mod 12 + 1 in
  1 <= m <= 12
  /\ y * 12 + m = year d * 12 + month d + n
  /\ (is_leap y = true <-> leap_year_rule y)
  /\ (1 <= y <= 9999 ->
      add_months d n = Ok (mkdate y m (Z.min (day d) (days_in_month y m)))
      /\ valid (mkdate y m (Z.min (day d) (days_in_month y m))))
  /\ (~ 1 <= y <= 9999 ->
      add_months d n
      = Raise (if fits_c_int y then ValueError else OverflowError)).
Proof.
  intros Hd y m.
  destruct (add_months_cases d n Hd) as (Hm & Hin & Hout).
  fold y in Hin, Hout. fold m in Hm, Hin, Hout.
  split; [exact Hm|]. split.
  { unfold y, m. pose proof (Z_div_mod_eq_full (month d - 1 + n) 12). lia. }
  split; [apply is_leap_rule|].
  split; [|exact Hout].
  intros Hy. split; [exact (Hin Hy)|].
  apply valid_iff in Hd as (_ & _ & Hday).
  pose proof (days_in_month_bounds y m Hm) as Hdim.
  apply valid_iff. simpl. lia.
Qed.

Lemma add_months_examples :
  add_months (mkdate 2024 1 31) 1 = Ok (mkdate 2024 2 29)
  /\ add_months (mkdate 2023 1 31) 1 = Ok (mkdate 2023 2 28).
Proof.
  split.
  - apply (add_months_clamps_within_supported_years
             (mkdate 2024 1 31) 1 eq_refl). cbn. lia.
  - apply (add_months_clamps_within_supported_years
             (mkdate 2023 1 31) 1 eq_refl). cbn. lia.
Defined.

(** C6 as stated fails: adding a month to a date of December 9999 raises. *)
Lemma add_months_can_raise :
  valid_date (mkdate 9999 12 31) = true
  /\ add_months (mkdate 9999 12 31) 1 = Raise ValueError.
Proof. split; reflexivity. Qed.

(** ** C3: the budget summary *)

Section BudgetFacts.
Variable float_of_string : string -> option float.

Lemma sum_task_budgets_spec (ts : list task) :
  Forall (fun t => task_budget t <> PNone) ts ->
  forall total,
    sum_task_budgets float_of_string ts total
    = (map InvalidBudgetInTask (skipped_tasks float_of_string ts),
       Ok (fold_left PrimFloat.add
             (parsable_budgets float_of_string ts) total)).
Proof.
  induction 1 as [|t r Ht _ IH]; intros total; [reflexivity|].
  simpl. destruct (task_budget t) as [|f|s]; [congruence| |]; simpl.
  - apply IH.
  - destruct (float_of_string s) as [f|]; simpl; [apply IH|].
    now rewrite IH.
Qed.

Lemma sum_task_budgets_none (ts : list task) :
  forall total t r,
    Forall (fun t => task_budget t <> PNone) ts ->
    task_budget t = PNone ->
    snd (sum_task_budgets float_of_string (ts ++ t :: r) total)
    = Raise TypeError.
Proof.
  induction ts as [|x ts IH]; intros total t r Hts Ht; simpl.
  - now rewrite Ht.
  - inversion Hts as [|? ? Hx Hts']; subst.
    destruct (task_budget x) as [|f|s]; [congruence| |]; simpl.
    + now apply IH.
    + destruct (float_of_string s); simpl; [now apply IH|].
      specialize (IH total t r Hts' Ht).
      destruct (sum_task_budgets float_of_string (ts ++ t :: r) total).
      exact IH.
Qed.
End BudgetFacts.

(** C3, as the code has it: the total is the left-to-right sum of the task
    budgets that [float()] accepts, the strings it refuses being skipped
    with a warning; the remaining amount is the event budget minus the
    total, reported as an overage when negative; and exactly when the event
    budget is strictly positive the usage is [int(total / budget * 100)],
    truncated toward zero rather than rounded, capped at 999 (an infinite
    or NaN quotient makes [int] raise).  Stated for budgets that are floats
    or strings. *)
Theorem budget_summary_truncates
  (float_of_string : string -> option float)
  (name : string) (p : planner) (e : event) (event_budget : float) :
  name <> "" ->
  Dict.get name (events p) = Some e ->
  budget e = PFloat event_budget ->
  Forall (fun t => task_budget t <> PNone) (tasks e) ->
  let total := float_sum (parsable_budgets float_of_string (tasks e)) in
  let remaining := (event_budget - total)%float in
  let summary :=
    map InvalidBudgetInTask (skipped_tasks float_of_string (tasks e))
    ++ [BudgetSummaryFor name; EventBudget event_budget; TaskBudgetUsed total;
        if (0 <=? remaining)%float then RemainingWithin remaining
        else OverBudgetBy (abs remaining)] in
  view_event_budget_summary float_of_string name p
  = if (0 <? event_budget)%float then
      match py_int (total / event_budget * 100)%float with
      | Ok percent => (summary ++ [Usage (Z.min percent 999)], Ok tt)
      | Raise ex => (summary, Raise ex)
      end
    else (summary, Ok tt).
Proof.
  intros Hname Hget Hb Hts total remaining summary.
  unfold view_event_budget_summary, get_event.
  destruct (String.eqb_spec name ""); [contradiction|].
  rewrite Hget, (sum_task_budgets_spec float_of_string _ Hts), Hb.
  fold (float_sum (parsable_budgets float_of_string (tasks e))).
  fold total. fold remaining. cbn [app].
  replace (map InvalidBudgetInTask (skipped_tasks float_of_string (tasks e))
           ++ [BudgetSummaryFor name; EventBudget event_budget;
               TaskBudgetUsed total]
           ++ [if (0 <=? remaining)%float then RemainingWithin remaining
               else OverBudgetBy (abs remaining)])
    with summary by reflexivity.
  destruct (0 <? event_budget)%float; [|reflexivity].
  destruct (py_int (total / event_budget * 100)%float); reflexivity.
Qed.

Lemma budget_summary_example :
  view_event_budget_summary no_float_of_string "party"
    (mkplanner
       [("party",
         plain_event "2025-01-10" (PFloat 1000) no_recurrence
           [plain_task "venue" "" (PFloat 400);
            plain_task "catering" "" (PFloat 800)])] [])
  = ([BudgetSummaryFor "party"; EventBudget 1000; TaskBudgetUsed 1200;
      OverBudgetBy 200; Usage 120], Ok tt).
Proof.
  set (e := plain_event "2025-01-10" (PFloat 1000) no_recurrence
              [plain_task "venue" "" (PFloat 400);
               plain_task "catering" "" (PFloat 800)]).
  refine (eq_trans
            (budget_summary_truncates no_float_of_string "party"
               (mkplanner [("party", e)] []) e 1000%float
               _ eq_refl eq_refl _) _).
  - discriminate.
  - repeat constructor; discriminate.
  - vm_compute. reflexivity.
Defined.

(** C3 as stated fails: the usage is truncated, not rounded.  With an
    event budget of 3 and one task budget of 2 the summary says 66, while
    [round] of the same quotient is 67. *)
Lemma budget_usage_is_not_rounded :
  view_event_budget_summary no_float_of_string "party"
    (mkplanner
       [("party",
         plain_event "2025-01-10" (PFloat 3) no_recurrence
           [plain_task "venue" "" (PFloat 2)])] [])
  = ([BudgetSummaryFor "party"; EventBudget 3; TaskBudgetUsed 2;
      RemainingWithin 1; Usage 66], Ok tt)
  /\ py_round (2 / 3 * 100)%float = Ok 67.
Proof. split; vm_compute; reflexivity. Qed.

(** ** C2: sorting by deadline *)

(** C2 (the code departs from the claim): sorting two tasks by deadline
    raises [TypeError] when one deadline does not parse: [by_deadline]
    returns [None] for it, and [None] cannot be ordered against a
    [datetime]. *)
Theorem sort_tasks_malformed_deadline_raises :
  sort_tasks "party" "1" "1"
    (mkplanner
       [("party",
         plain_event "2025-01-10" (PFloat 0) no_recurrence
           [plain_task "book venue" "2025-01-05" (PFloat 0);
            plain_task "send invitations" "next week" (PFloat 0)])] [])
  = ([Say "Sort which tasks?"; Say "1. Active Tasks 2. Archived Tasks";
      Say "Sort Tasks By:";
      Say "1. Deadline (soonest first) 2. Priority (High first) 3. Completed last 4. Budget (high to low)";
      InvalidDeadlineFormat "send invitations"],
     Raise TypeError).
Proof. vm_compute. reflexivity. Qed.

(** ** C5: the deadline invariant and batch insertion *)

(** C5 (the code departs from the claim): the batch path of [add_tasks]
    stores a deadline after the date of a non-recurring event, so the
    deadline invariant holds before the call and fails after it. *)
Theorem add_tasks_batch_breaks_deadline_invariant :
  let e := plain_event "2025-01-10" (PFloat 0) no_recurrence [] in
  let p := mkplanner [("party", e)] [] in
  let p' :=
    fst (add_tasks_batch "party"
           [plain_task "book band" "2025-01-15" (PFloat 0)] p) in
  deadline_invariant e = true
  /\ option_map deadline_invariant (Dict.get "party" (events p'))
     = Some false.
Proof. split; vm_compute; reflexivity. Qed.

(** ** Dictionaries *)

Section DictFacts.
Context {V : Type}.
Implicit Types (d : Dict.t V) (k : string) (v : V).

Lemma get_set_same d k v : Dict.get k (Dict.set k v d) = Some v.
Proof.
  induction d as [|[k' v'] r IH]; simpl.
  - now rewrite String.eqb_refl.
  - destruct (String.eqb k k') eqn:E; simpl.
    + now rewrite String.eqb_refl.
    + now rewrite E.
Qed.

Lemma get_set_other d k k' v :
  k' <> k -> Dict.get k' (Dict.set k v d) = Dict.get k' d.
Proof.
  intros Hne. induction d as [|[k0 v0] r IH]; simpl.
  - destruct (String.eqb_spec k' k); [contradiction|reflexivity].
  - destruct (String.eqb_spec k k0) as [->|Hk]; simpl.
    + destruct (String.eqb_spec k' k0); [contradiction|reflexivity].
    + destruct (String.eqb k' k0); [reflexivity|exact IH].
Qed.

Lemma get_remove_same d k : Dict.get k (Dict.remove k d) = None.
Proof.
  unfold Dict.remove. induction d as [|[k' v'] r IH]; simpl; [reflexivity|].
  destruct (String.eqb k k') eqn:E; simpl; [exact IH|]. now rewrite E.
Qed.

Lemma get_remove_other d k k' :
  k' <> k -> Dict.get k' (Dict.remove k d) = Dict.get k' d.
Proof.
  intros Hne. unfold Dict.remove.
  induction d as [|[k0 v0] r IH]; simpl; [reflexivity|].
  destruct (String.eqb_spec k k0) as [->|Hk]; simpl.
  - destruct (String.eqb_spec k' k0); [contradiction|exact IH].
  - destruct (String.eqb k' k0); [reflexivity|exact IH].
Qed.

Lemma keys_set_present d k v :
  Dict.mem k d = true -> Dict.keys (Dict.set k v d) = Dict.keys d.
Proof.
  unfold Dict.mem, Dict.keys.
  induction d as [|[k' v'] r IH]; simpl; [discriminate|].
  destruct (String.eqb_spec k k') as [->|Hk]; simpl; [reflexivity|].
  intros H. now rewrite IH.
Qed.

Lemma keys_set_absent d k v :
  Dict.mem k d = false -> Dict.keys (Dict.set k v d) = Dict.keys d ++ [k].
Proof.
  unfold Dict.mem, Dict.keys.
  induction d as [|[k' v'] r IH]; simpl; [reflexivity|].
  destruct (String.eqb_spec k k') as [->|Hk]; simpl; [discriminate|].
  intros H. now rewrite IH.
Qed.

Lemma mem_get d k : Dict.mem k d = true <-> exists v, Dict.get k d = Some v.
Proof.
  unfold Dict.mem. destruct (Dict.get k d) as [v|].
  - split; eauto.
  - split; [discriminate|intros [v [=]]].
Qed.
End DictFacts.

(** ** C8: duplicate names *)

(** C8: creating an event under a name the active set already has fails
  with "Event already exists.", restoring an archived event under such a
  name fails with "Cannot restore...", and both leave the active and the
  archived collections as they were. *)
Theorem duplicate_name_leaves_state_unchanged
(name : string) (fields : event) (p : planner) :
Dict.mem name (events p) = true ->
fst (create_event name fields p) = p
/\ (name <> "" ->
    create_event name fields p = (p, [Say "Event already exists."]))
/\ fst (manage_event_archive "3" name p) = p
/\ (Dict.mem name (archived_events p) = true ->
    manage_event_archive "3" name p
    = (p, archive_menu
            ++ [Say "Cannot restore. An event with this name already exists."])).
Proof.
intros Hmem. unfold create_event, manage_event_archive. rewrite Hmem.
cbn [String.eqb Ascii.eqb Bool.eqb].
repeat split.
- destruct (String.eqb name ""); reflexivity.
- intros Hne. destruct (String.eqb_spec name ""); [contradiction|reflexivity].
- destruct (Dict.get name (archived_events p)); reflexivity.
- intros Ha. apply mem_get in Ha as [v ->]. reflexivity.
Qed.

Lemma duplicate_name_witness :
let e := plain_event "2025-01-10" (PFloat 0) no_recurrence [] in
let p := mkplanner [("party", e)] [("party", e)] in
create_event "party" e p = (p, [Say "Event already exists."])
/\ manage_event_archive "3" "party" p
   = (p, archive_menu
           ++ [Say "Cannot restore. An event with this name already exists."]).
Proof.
intros e p.
pose proof (duplicate_name_leaves_state_unchanged "party" e p eq_refl)
  as (_ & Hc & _ & Hr).
split; [apply Hc; discriminate|apply Hr; reflexivity].
Defined.

(** ** C10: archiving over an archived event of the same name *)

(** C10: archiving an event of the active set always succeeds: the event
  leaves the active set and is stored in the archive under its name.  An
  archived event of that name is replaced in place (the archive keeps the
  same names, and that name now yields the event just archived); every
  other archived event is untouched. *)
Theorem archive_replaces_archived_event
(name : string) (p : planner) (e : event) :
Dict.get name (events p) = Some e ->
let p' := fst (manage_event_archive "1" name p) in
snd (manage_event_archive "1" name p)
= archive_menu ++ [Say "Event archived."]
/\ Dict.get name (events p') = None
/\ Dict.get name (archived_events p') = Some e
/\ (Dict.mem name (archived_events p) = true ->
    Dict.keys (archived_events p') = Dict.keys (archived_events p))
/\ (forall k, k <> name ->
      Dict.get k (archived_events p') = Dict.get k (archived_events p)
      /\ Dict.get k (events p') = Dict.get k (events p)).
Proof.
intros Hget. unfold manage_event_archive.
cbn [String.eqb Ascii.eqb Bool.eqb]. rewrite Hget. cbn [fst snd events
archived_events].
repeat split.
- apply get_remove_same.
- apply get_set_same.
- apply keys_set_present.
- now apply get_set_other.
- now apply get_remove_other.
Qed.

Lemma archive_replaces_witness :
let old := plain_event "2024-01-01" (PFloat 5) no_recurrence [] in
let new := plain_event "2025-01-10" (PFloat 7) no_recurrence [] in
let p := mkplanner [("party", new)] [("party", old)] in
fst (manage_event_archive "1" "party" p)
= mkplanner [] [("party", new)]
/\ Dict.get "party" (archived_events (fst (manage_event_archive "1" "party" p)))
   = Some new.
Proof.
intros old new p. split; [reflexivity|].
exact (proj1 (proj2 (proj2
         (archive_replaces_archived_event "party" p new eq_refl)))).
Defined.

(** ** C4: the deadline check at interactive insert and edit *)

Lemma date_cmp_antisym a b : date_cmp b a = CompOpp (date_cmp a b).
Proof.
  unfold date_cmp.
  rewrite (Z.compare_antisym (year a) (year b)),
    (Z.compare_antisym (month a) (month b)),
    (Z.compare_antisym (day a) (day b)).
  destruct (year a ?= year b), (month a ?= month b), (day a ?= day b);
    reflexivity.
Qed.

Lemma date_ltb_leb a b : date_ltb a b = negb (date_leb b a).
Proof.
  unfold date_ltb, date_leb. rewrite (date_cmp_antisym a b).
  destruct (date_cmp a b); reflexivity.
Qed.

Lemma strptime_nonempty s d : strptime s = Ok d -> String.eqb s "" = false.
Proof. destruct s; [discriminate|reflexivity]. Qed.

(** C4: a deadline that parses, checked against an event whose date
    parses, is stored as it is when the event recurs or the deadline is not
    after the event's date; otherwise the task is still added (or edited)
    with its deadline cleared to the empty string and the warning is
    spoken. *)
Theorem deadline_check_clears_late_deadline
  (name : string) (p : planner) (e : event)
  (task_text deadline prio stat : string) (bud : pyval)
  (task_date event_date : date) :
  name <> "" ->
  Dict.get name (events p) = Some e ->
  strptime deadline = Ok task_date ->
  strptime (ev_date e) = Ok event_date ->
  let accepted :=
    enabled (ev_recurrence e) || date_leb task_date event_date in
  let stored := if accepted then deadline else "" in
  let warning :=
    if accepted then []
    else [Say "Deadline must be on or before event date unless event is recurring."] in
  add_tasks name task_text deadline prio stat bud p
  = Ok (update_event name
          (set_tasks e
             (tasks e ++ [mktask task_text stored prio stat bud])) p,
        warning ++ [Say "Task added."])
  /\ edit_task_check_deadline e deadline = (stored, warning)
  /\ forall index_input t,
       is_digit_string index_input = true ->
       1 <= int_of_digits index_input ->
       nth_error (tasks e) (Z.to_nat (int_of_digits index_input - 1))
       = Some t ->
       fst (edit_task_deadline name index_input deadline p)
       = update_event name
           (set_tasks e
              (replace_nth (Z.to_nat (int_of_digits index_input - 1))
                 (set_deadline t stored) (tasks e))) p.
Proof.
  intros Hname Hget Htd Hed accepted stored warning.
  assert (Hcheck : edit_task_check_deadline e deadline = (stored, warning)).
  { unfold edit_task_check_deadline.
    rewrite (strptime_nonempty _ _ Htd), Htd, Hed. cbn [bind].
    rewrite date_ltb_leb. unfold stored, warning, accepted.
    destruct (enabled (ev_recurrence e)), (date_leb task_date event_date);
      reflexivity. }
  split; [|split; [exact Hcheck|]].
  - unfold add_tasks, get_event.
    destruct (String.eqb_spec name ""); [contradiction|].
    rewrite Hget. unfold add_tasks_check_deadline.
    rewrite (strptime_nonempty _ _ Htd), Htd, Hed. cbn [bind].
    rewrite date_ltb_leb. unfold stored, warning, accepted.
    destruct (enabled (ev_recurrence e)), (date_leb task_date event_date);
      reflexivity.
  - intros index_input t Hdig Hpos Hnth.
    unfold edit_task_deadline, get_event.
    destruct (String.eqb_spec name ""); [contradiction|].
    rewrite Hget.
    destruct (tasks e) as [|t0 ts] eqn:Ets.
    { destruct (Z.to_nat (int_of_digits index_input - 1)); discriminate. }
    rewrite Hdig. cbn [negb].
    assert (Hlen : (Z.to_nat (int_of_digits index_input - 1)
                    < List.length (t0 :: ts))%nat).
    { apply nth_error_Some. rewrite Hnth. discriminate. }
    destruct ((int_of_digits index_input - 1 <? 0)
              || (int_of_digits index_input - 1
                  >=? Z.of_nat (List.length (t0 :: ts)))) eqn:Eb.
    { apply orb_true_iff in Eb as [Eb|Eb]; [apply Z.ltb_lt in Eb; lia|].
      apply Z.geb_le in Eb. lia. }
    rewrite Hnth, Hcheck. reflexivity.
Qed.

Lemma deadline_check_examples :
  let e := plain_event "2025-01-10" (PFloat 0) no_recurrence [] in
  let p := mkplanner [("party", e)] [] in
  add_tasks "party" "book band" "2025-01-15" "High" "Pending" (PFloat 0) p
  = Ok (mkplanner
          [("party",
            plain_event "2025-01-10" (PFloat 0) no_recurrence
              [mktask "book band" "" "High" "Pending" (PFloat 0)])] [],
        [Say "Deadline must be on or before event date unless event is recurring.";
         Say "Task added."])
  /\ add_tasks "party" "book band" "2025-01-05" "High" "Pending" (PFloat 0) p
     = Ok (mkplanner
             [("party",
               plain_event "2025-01-10" (PFloat 0) no_recurrence
                 [mktask "book band" "2025-01-05" "High" "Pending" (PFloat 0)])]
             [],
           [Say "Task added."]).
Proof.
  intros e p. split.
  - refine (eq_trans
              (proj1 (deadline_check_clears_late_deadline "party" p e
                        "book band" "2025-01-15" "High" "Pending" (PFloat 0)
                        (mkdate 2025 1 15) (mkdate 2025 1 10)
                        _ eq_refl eq_refl eq_refl)) _);
      [discriminate|reflexivity].
  - refine (eq_trans
              (proj1 (deadline_check_clears_late_deadline "party" p e
                        "book band" "2025-01-05" "High" "Pending" (PFloat 0)
                        (mkdate 2025 1 5) (mkdate 2025 1 10)
                        _ eq_refl eq_refl eq_refl)) _);
      [discriminate|reflexivity].
Defined.

(** ** Sorting *)

Section SortFacts.
Context {A K : Type}.
Variable lt : K -> K -> exc bool.
Variable keyf : A -> list line * exc K.
Variable ltb : K -> K -> bool.
Variable key : A -> K.
Variable good : K -> Prop.

Hypothesis lt_ok : forall a b, good a -> good b -> lt a b = Ok (ltb a b).
Hypothesis ltb_irrefl : forall a, ltb a a = false.
Hypothesis ltb_trans :
  forall a b c, ltb a b = true -> ltb b c = true -> ltb a c = true.
Hypothesis ltb_negtrans :
  forall a b c, ltb a b = false -> ltb b c = false -> ltb a c = false.

Let sorted_rel := not_after (A := A) ltb.
Let equiv_to := same_key (A := A) ltb.

Lemma ltb_asym a b : ltb a b = true -> ltb b a = false.
Proof.
  intros H. destruct (ltb b a) eqn:E; [|reflexivity].
  rewrite <- (ltb_irrefl a). symmetry. now apply (ltb_trans a b a).
Qed.

Lemma insert_ok (x : K * A) (l : list (K * A)) :
  good (fst x) -> Forall (fun y => good (fst y)) l ->
  exists r,
    insert lt x l = Ok r
    /\ Permutation (x :: l) r
    /\ (StronglySorted sorted_rel l -> StronglySorted sorted_rel r)
    /\ forall k, filter (equiv_to k) r = filter (equiv_to k) (x :: l).
Proof.
  intros Hx. induction 1 as [|y l Hy Hl IH].
  - exists [x]. simpl. repeat split; auto. intros _. repeat constructor.
  - simpl. rewrite (lt_ok _ _ Hy Hx). cbn [bind].
    destruct (ltb (fst y) (fst x)) eqn:Eyx.
    + destruct IH as (r & -> & Hperm & Hsorted & Hstable). cbn [bind].
      exists (y :: r). split; [reflexivity|]. split; [|split].
      * rewrite perm_swap. now constructor.
      * intros Hs. inversion Hs as [|? ? Hs' Hall]; subst.
        constructor; [auto|].
        apply (Permutation_Forall Hperm). constructor; [|exact Hall].
        unfold sorted_rel, not_after. now apply ltb_asym.
      * intros k. simpl. rewrite Hstable. simpl.
        destruct (equiv_to k y) eqn:Ey, (equiv_to k x) eqn:Ex; try reflexivity.
        exfalso. unfold equiv_to, same_key in Ey, Ex.
        rewrite andb_true_iff, !negb_true_iff in Ey, Ex.
        destruct Ey as [Ey1 Ey2], Ex as [Ex1 Ex2].
        rewrite (ltb_negtrans _ _ _ Ey1 Ex2) in Eyx. discriminate.
    + exists (x :: y :: l). split; [reflexivity|]. split; [reflexivity|].
      split; [|reflexivity].
      intros Hs. constructor; [exact Hs|].
      inversion Hs as [|? ? Hs' Hall]; subst.
      constructor; [exact Eyx|].
      eapply Forall_impl; [|exact Hall]. intros z Hz. unfold sorted_rel, not_after in *.
      now apply (ltb_negtrans _ (fst y)).
Qed.

Lemma isort_ok (l : list (K * A)) :
  Forall (fun y => good (fst y)) l ->
  exists r,
    isort lt l = Ok r
    /\ Permutation l r
    /\ StronglySorted sorted_rel r
    /\ forall k, filter (equiv_to k) r = filter (equiv_to k) l.
Proof.
  induction 1 as [|x l Hx Hl IH].
  - exists []. repeat split; auto. constructor.
  - destruct IH as (r & Hr & Hperm & Hsorted & Hstable).
    simpl. rewrite Hr. cbn [bind].
    destruct (insert_ok x r Hx) as (r' & Hr' & Hperm' & Hsorted' & Hstable').
    { now apply (Permutation_Forall Hperm). }
    exists r'. split; [exact Hr'|]. split; [|split].
    + rewrite <- Hperm'. now constructor.
    + auto.
    + intros k. rewrite Hstable'. simpl. now rewrite Hstable.
Qed.

Hypothesis keyf_ok : forall a, snd (keyf a) = Ok (key a).

Lemma decorate_ok (l : list A) :
  decorate keyf l
  = (flat_map (fun a => fst (keyf a)) l, Ok (map (fun a => (key a, a)) l)).
Proof.
  induction l as [|a l IH]; [reflexivity|]. simpl.
  pose proof (keyf_ok a) as Ha. destruct (keyf a) as [o res].
  simpl in Ha. subst res. now rewrite IH.
Qed.

Lemma filter_map_snd (f : K * A -> bool) (g : A -> bool) (l : list (K * A)) :
  Forall (fun ka => f ka = g (snd ka)) l ->
  map snd (filter f l) = filter g (map snd l).
Proof.
  induction 1 as [|ka l Hka _ IH]; [reflexivity|]. simpl.
  rewrite Hka. destruct (g (snd ka)); simpl; now rewrite IH.
Qed.

(** The sort of a list whose keys can all be compared: it succeeds, and
    the result is a stable sorted permutation. *)
Lemma list_sort_ok (l : list A) :
  Forall (fun a => good (key a)) l ->
  exists r,
    list_sort lt keyf l = (flat_map (fun a => fst (keyf a)) l, Ok r)
    /\ Permutation l r
    /\ StronglySorted (fun a b => ltb (key b) (key a) = false) r
    /\ forall k,
         filter (fun a => negb (ltb (key a) k) && negb (ltb k (key a))) r
         = filter (fun a => negb (ltb (key a) k) && negb (ltb k (key a))) l.
Proof.
  intros Hgood. unfold list_sort. rewrite decorate_ok.
  destruct (isort_ok (map (fun a => (key a, a)) l))
    as (r & Hr & Hperm & Hsorted & Hstable).
  { apply Forall_map. exact Hgood. }
  rewrite Hr. cbn [bind]. exists (map snd r). split; [reflexivity|].
  assert (Hkeys : Forall (fun ka => fst ka = key (snd ka)) r).
  { apply (Permutation_Forall Hperm). apply Forall_map.
    apply Forall_forall. reflexivity. }
  split; [|split].
  - apply (Permutation_map snd) in Hperm.
    rewrite map_map, map_id in Hperm. exact Hperm.
  - clear Hstable Hperm Hr. induction Hsorted as [|ka r' Hs IH Hall].
    + constructor.
    + inversion Hkeys as [|? ? Hka Hkeys']; subst. simpl.
      constructor; [auto|].
      apply Forall_map. rewrite Forall_forall in *.
      intros z Hz. specialize (Hall z Hz). unfold sorted_rel, not_after in Hall.
      now rewrite <- Hka, <- (Hkeys' z Hz).
  - intros k.
    rewrite <- (filter_map_snd (equiv_to k)).
    2:{ eapply Forall_impl; [|exact Hkeys]. intros ka Hka.
        unfold equiv_to, same_key. now rewrite Hka. }
    rewrite Hstable.
    rewrite (filter_map_snd (equiv_to k)
               (fun a => negb (ltb (key a) k) && negb (ltb k (key a)))).
    2:{ apply Forall_map. apply Forall_forall. reflexivity. }
    now rewrite map_map, map_id.
Qed.
End SortFacts.

(** *** The order of [datetime]s *)

Lemma datetime_ltb_iff a b : datetime_ltb a b = true <-> datetime_before a b.
Proof.
  unfold datetime_ltb, datetime_before, date_cmp.
  destruct (Z.compare_spec (year (dt_date a)) (year (dt_date b)));
    [|split; [lia|reflexivity]|split; [discriminate|lia]].
  destruct (Z.compare_spec (month (dt_date a)) (month (dt_date b)));
    [|split; [lia|reflexivity]|split; [discriminate|lia]].
  destruct (Z.compare_spec (day (dt_date a)) (day (dt_date b)));
    [|split; [lia|reflexivity]|split; [discriminate|lia]].
  rewrite Z.ltb_lt. lia.
Qed.

Lemma datetime_ltb_false_iff a b :
  datetime_ltb a b = false <-> ~ datetime_before a b.
Proof. rewrite <- datetime_ltb_iff. now destruct (datetime_ltb a b). Qed.

Lemma datetime_ltb_irrefl a : datetime_ltb a a = false.
Proof. apply datetime_ltb_false_iff. unfold datetime_before. lia. Qed.

Lemma datetime_ltb_trans a b c :
  datetime_ltb a b = true -> datetime_ltb b c = true ->
  datetime_ltb a c = true.
Proof. rewrite !datetime_ltb_iff. unfold datetime_before. lia. Qed.

Lemma datetime_ltb_negtrans a b c :
  datetime_ltb a b = false -> datetime_ltb b c = false ->
  datetime_ltb a c = false.
Proof. rewrite !datetime_ltb_false_iff. unfold datetime_before. lia. Qed.

Lemma deadline_key_ltb_irrefl a : deadline_key_ltb a a = false.
Proof. destruct a; simpl; [apply datetime_ltb_irrefl|reflexivity]. Qed.

Lemma deadline_key_ltb_trans a b c :
  deadline_key_ltb a b = true -> deadline_key_ltb b c = true ->
  deadline_key_ltb a c = true.
Proof.
  destruct a, b, c; simpl; try discriminate; try reflexivity.
  apply datetime_ltb_trans.
Qed.

Lemma deadline_key_ltb_negtrans a b c :
  deadline_key_ltb a b = false -> deadline_key_ltb b c = false ->
  deadline_key_ltb a c = false.
Proof.
  destruct a, b, c; simpl; try discriminate; try reflexivity.
  apply datetime_ltb_negtrans.
Qed.

(** *** Sorting tasks by deadline *)

Lemma digit_range c v : digit c = Some v -> 0 <= v <= 9.
Proof.
  unfold digit.
  destruct ((48 <=? Z.of_N (N_of_ascii c)) && (Z.of_N (N_of_ascii c) <=? 57))
    eqn:E; [|discriminate].
  apply andb_true_iff in E as [E1 E2]. apply Z.leb_le in E1, E2.
  intros [= <-]. lia.
Qed.

Lemma digit_in_range lo hi c v : digit_in lo hi c = Some v -> lo <= v <= hi.
Proof.
  unfold digit_in. destruct (digit c) as [u|]; [|discriminate].
  destruct ((lo <=? u) && (u <=? hi)) eqn:E; [|discriminate].
  apply andb_true_iff in E as [E1 E2]. apply Z.leb_le in E1, E2.
  intros [= <-]. lia.
Qed.

Lemma some_pair_fst {A B : Type} (a a' : A) (b b' : B) :
  Some (a, b) = Some (a', b') -> a = a'.
Proof. congruence. Qed.

Ltac digit_groups H :=
  repeat match type of H with
         | context [digit_in ?lo ?hi ?c] =>
             let E := fresh "E" in
             destruct (digit_in lo hi c) eqn:E;
             [apply digit_in_range in E|]
         | context [match ?r with EmptyString => _ | String _ _ => _ end] =>
             destruct r
         | context [if ?b then _ else _] => destruct b
         end;
  try discriminate;
  try (apply some_pair_fst in H; lia).

Lemma match_m_range s m r : match_m s = Some (m, r) -> 1 <= m <= 12.
Proof. unfold match_m. intros H. digit_groups H. Qed.

Lemma match_d_range s d r : match_d s = Some (d, r) -> 1 <= d <= 31.
Proof. unfold match_d. intros H. digit_groups H. Qed.

Lemma strptime_raises s ex : strptime s = Raise ex -> ex = ValueError.
Proof.
  unfold strptime. intros H.
  destruct s as [|y1 [|y2 [|y3 [|y4 [|dash rest]]]]]; try congruence.
  destruct (digit y1) as [a|] eqn:Ea; [apply digit_range in Ea|congruence].
  destruct (digit y2) as [b|] eqn:Eb; [apply digit_range in Eb|congruence].
  destruct (digit y3) as [c|] eqn:Ec; [apply digit_range in Ec|congruence].
  destruct (digit y4) as [d|] eqn:Ed; [apply digit_range in Ed|congruence].
  destruct (Ascii.eqb dash "-"); [|congruence].
  destruct (match_m rest) as [[m [|dash' rest']]|] eqn:Em; try congruence.
  apply match_m_range in Em.
  destruct (Ascii.eqb dash' "-"); [|congruence].
  destruct (match_d rest') as [[dd [|? ?]]|] eqn:Edd; try congruence.
  apply match_d_range in Edd.
  unfold make_date in H.
  assert (Hf : fits_c_int (1000 * a + 100 * b + 10 * c + d)
               && fits_c_int m && fits_c_int dd = true).
  { unfold fits_c_int. rewrite !andb_true_iff, !Z.leb_le. lia. }
  rewrite Hf in H.
  destruct (valid_date _) in H; congruence.
Qed.

Lemma by_deadline_key t : snd (by_deadline t) = Ok (deadline_key t).
Proof.
  unfold by_deadline, deadline_key.
  destruct (String.eqb (deadline t) ""); [reflexivity|].
  destruct (strptime (deadline t)) as [d|ex] eqn:E; [reflexivity|].
  apply strptime_raises in E. subst ex. reflexivity.
Qed.

Lemma by_deadline_spoken t :
  fst (by_deadline t)
  = if deadline_malformed t then [InvalidDeadlineFormat (task_text t)] else [].
Proof.
  unfold by_deadline, deadline_malformed.
  destruct (String.eqb (deadline t) ""); [reflexivity|].
  destruct (strptime (deadline t)) as [d|ex] eqn:E; [reflexivity|].
  apply strptime_raises in E. subst ex. reflexivity.
Qed.

Lemma deadline_key_malformed t :
  deadline_key t = None <-> deadline_malformed t = true.
Proof.
  unfold deadline_key, deadline_malformed.
  destruct (String.eqb (deadline t) ""); simpl; [split; discriminate|].
  destruct (strptime (deadline t)); split; congruence.
Qed.

Lemma deadline_key_well_formed t :
  deadline_malformed t = false -> deadline_key t = Some (deadline_or_max t).
Proof.
  unfold deadline_key, deadline_malformed, deadline_or_max.
  destruct (String.eqb (deadline t) ""); simpl; [reflexivity|].
  destruct (strptime (deadline t)); [reflexivity|discriminate].
Qed.

Lemma deadline_before_max t :
  deadline_malformed t = false ->
  String.eqb (deadline t) "" = false ->
  datetime_ltb (deadline_or_max t) datetime_max = true.
Proof.
  unfold deadline_malformed, deadline_or_max. intros Hm He.
  rewrite He in *. simpl in Hm.
  destruct (strptime (deadline t)) as [d|] eqn:E; [|discriminate].
  apply strptime_valid, valid_iff in E as (Hy & Hmo & Hd).
  pose proof (days_in_month_bounds (year d) (month d) Hmo).
  apply datetime_ltb_iff. unfold datetime_before. simpl. lia.
Qed.

Lemma deadline_key_lt_ok a b :
  a <> None -> b <> None -> deadline_key_lt a b = Ok (deadline_key_ltb a b).
Proof. destruct a, b; intros Ha Hb; try contradiction; reflexivity. Qed.

Lemma isort_none_raises (l : list (option datetime * task)) :
  (2 <= List.length l)%nat ->
  existsb (fun ka => match fst ka with None => true | Some _ => false end) l
  = true ->
  isort deadline_key_lt l = Raise TypeError.
Proof.
  induction l as [|x l IH]; intros Hlen Hex; [simpl in Hlen; lia|].
  destruct l as [|y l'].
  { simpl in Hlen. lia. }
  change (isort deadline_key_lt (x :: y :: l'))
    with (r' <- isort deadline_key_lt (y :: l') ;;
          insert deadline_key_lt x r').
  change (existsb
            (fun ka => match fst ka with None => true | Some _ => false end)
            (x :: y :: l'))
    with (match fst x with None => true | Some _ => false end
          || existsb
               (fun ka => match fst ka with None => true | Some _ => false end)
               (y :: l')) in Hex.
  destruct (existsb
              (fun ka => match fst ka with None => true | Some _ => false end)
              (y :: l')) eqn:Etail.
  - destruct l' as [|z l''].
    + simpl in *. rewrite orb_false_r in Etail.
      destruct (fst y); [discriminate|]. reflexivity.
    + rewrite IH; [reflexivity|simpl; lia|reflexivity].
  - rewrite orb_false_r in Hex.
    destruct (isort_ok (A := task) deadline_key_lt deadline_key_ltb
                (fun k => k <> None) deadline_key_lt_ok
                deadline_key_ltb_irrefl deadline_key_ltb_trans
                deadline_key_ltb_negtrans (y :: l'))
      as (r & Hr & Hperm & _).
    + apply Forall_forall. intros ka Hin Hnone.
      assert (existsb
                (fun ka => match fst ka with None => true | _ => false end)
                (y :: l') = true).
      { apply existsb_exists. exists ka. rewrite Hnone. auto. }
      congruence.
    + rewrite Hr. cbn [bind].
      destruct r as [|r0 r'].
      { apply Permutation_sym, Permutation_nil in Hperm. discriminate. }
      simpl. destruct (fst x); [discriminate|].
      destruct (fst r0); reflexivity.
Qed.

Lemma StronglySorted_change {A : Type} (R R' : A -> A -> Prop)
  (P : A -> Prop) (l : list A) :
  (forall a b, P a -> P b -> R a b -> R' a b) ->
  Forall P l -> StronglySorted R l -> StronglySorted R' l.
Proof.
  intros HR HP Hs. induction Hs as [|a l Hs IH Hall]; [constructor|].
  inversion HP as [|? ? Pa Pl]; subst. constructor; [auto|].
  rewrite Forall_forall in *. intros b Hb. apply HR; auto.
Qed.

Lemma StronglySorted_after {A : Type} (R : A -> A -> Prop)
  (l1 : list A) (a : A) (l2 : list A) :
  StronglySorted R (l1 ++ a :: l2) -> Forall (R a) l2.
Proof.
  induction l1 as [|x l1 IH]; simpl; intros H;
    inversion H as [|? ? Hs Hall]; subst; auto.
Qed.

Lemma existsb_false_Forall {A : Type} (f : A -> bool) (l : list A) :
  existsb f l = false <-> Forall (fun a => f a = false) l.
Proof.
  induction l as [|a l IH]; simpl.
  - split; auto.
  - rewrite orb_false_iff, IH. split.
    + intros [H1 H2]. now constructor.
    + intros H. inversion H; subst. auto.
Qed.

Lemma list_sort_by_deadline_ok (l : list task) :
  existsb deadline_malformed l = false ->
  exists r,
    list_sort deadline_key_lt by_deadline l = ([], Ok r)
    /\ Permutation l r
    /\ StronglySorted deadline_not_after r
    /\ (forall dt, filter (same_deadline dt) r = filter (same_deadline dt) l)
    /\ (forall r1 a r2,
          r = r1 ++ a :: r2 -> deadline a = "" ->
          Forall (fun b => deadline b = "") r2).
Proof.
  intros Hwf. apply existsb_false_Forall in Hwf.
  destruct (list_sort_ok deadline_key_lt by_deadline deadline_key_ltb
              deadline_key (fun k => k <> None) deadline_key_lt_ok
              deadline_key_ltb_irrefl deadline_key_ltb_trans
              deadline_key_ltb_negtrans by_deadline_key l)
    as (r & Hr & Hperm & Hsorted & Hstable).
  { eapply Forall_impl; [|exact Hwf]. intros t Ht.
    now rewrite (deadline_key_well_formed t Ht). }
  assert (Hwfr : Forall (fun t => deadline_malformed t = false) r)
    by now apply (Permutation_Forall Hperm).
  assert (Hs : StronglySorted deadline_not_after r).
  { eapply StronglySorted_change; [|exact Hwfr|exact Hsorted].
    intros a b Ha Hb. simpl.
    rewrite (deadline_key_well_formed a Ha), (deadline_key_well_formed b Hb).
    auto. }
  exists r. split; [|split; [exact Hperm|split; [exact Hs|split]]].
  - rewrite Hr. f_equal.
    clear -Hwf. induction Hwf as [|t l Ht _ IH]; [reflexivity|].
    simpl. now rewrite by_deadline_spoken, Ht, IH.
  - intros dt. specialize (Hstable (Some dt)).
    erewrite (filter_ext_in (same_deadline dt)),
      (filter_ext_in (same_deadline dt) _ l); [exact Hstable| |].
    + intros t Ht. rewrite Forall_forall in Hwf.
      now rewrite (deadline_key_well_formed t (Hwf t Ht)).
    + intros t Ht. rewrite Forall_forall in Hwfr.
      now rewrite (deadline_key_well_formed t (Hwfr t Ht)).
  - intros r1 a r2 -> Ha.
    pose proof (StronglySorted_after _ _ _ _ Hs) as Hall.
    apply Forall_forall. intros b Hb.
    rewrite Forall_forall in Hall, Hwfr.
    specialize (Hall b Hb). unfold deadline_not_after in Hall.
    destruct (String.eqb_spec (deadline b) "") as [Hbe|Hbn]; [exact Hbe|].
    exfalso.
    assert (Hbwf : deadline_malformed b = false).
    { apply Hwfr. apply in_or_app. right. simpl. auto. }
    assert (Hlt := deadline_before_max b Hbwf).
    destruct (String.eqb (deadline b) "") eqn:Eb.
    { apply String.eqb_eq in Eb. contradiction. }
    specialize (Hlt eq_refl).
    unfold deadline_or_max at 2 in Hall. rewrite Ha in Hall. simpl in Hall.
    congruence.
Qed.

Lemma list_sort_by_deadline_raises_iff (l : list task) :
  snd (list_sort deadline_key_lt by_deadline l) = Raise TypeError
  <-> (2 <= List.length l)%nat /\ existsb deadline_malformed l = true.
Proof.
  split.
  - intros H.
    destruct (existsb deadline_malformed l) eqn:Ex.
    + split; [|reflexivity].
      destruct l as [|a [|b l]]; simpl; try lia.
      * discriminate H.
      * unfold list_sort in H. cbn [decorate] in H.
        pose proof (by_deadline_key a) as Ha.
        destruct (by_deadline a) as [o res]. simpl in Ha. subst res.
        discriminate H.
    + destruct (list_sort_by_deadline_ok l Ex) as (r & Hr & _).
      rewrite Hr in H. discriminate.
  - intros [Hlen Hex]. unfold list_sort.
    rewrite (decorate_ok by_deadline deadline_key by_deadline_key).
    cbn [snd]. rewrite isort_none_raises; [reflexivity| |].
    + now rewrite length_map.
    + apply existsb_exists in Hex as (t & Hin & Ht).
      apply existsb_exists. exists (deadline_key t, t). split.
      * apply in_map_iff. eauto.
      * apply deadline_key_malformed in Ht. simpl. now rewrite Ht.
Qed.

(** In an event whose tasks have no malformed deadline, sorting the active
    tasks by deadline succeeds and stores a permutation of the tasks that
    is sorted by deadline and stable (tasks with equivalent keys keep their
    order), with every task without a deadline after all the others. *)
Theorem sort_tasks_by_deadline_sorts (name : string) (p : planner) (e : event) :
  name <> "" ->
  Dict.get name (events p) = Some e ->
  tasks e <> [] ->
  existsb deadline_malformed (tasks e) = false ->
  exists r,
    sort_tasks name "1" "1" p
    = ([Say "Sort which tasks?"; Say "1. Active Tasks 2. Archived Tasks"]
         ++ sort_menu ++ [Say "Tasks sorted."],
       Ok (update_event name (set_tasks e r) p))
    /\ Permutation (tasks e) r
    /\ StronglySorted deadline_not_after r
    /\ (forall dt,
          filter (same_deadline dt) r = filter (same_deadline dt) (tasks e))
    /\ (forall r1 a r2,
          r = r1 ++ a :: r2 -> deadline a = "" ->
          Forall (fun b => deadline b = "") r2).
Proof.
  intros Hname Hget Hne Hwf.
  destruct (list_sort_by_deadline_ok (tasks e) Hwf)
    as (r & Hr & Hperm & Hs & Hstable & Hlast).
  exists r. split; [|auto].
  unfold sort_tasks, get_event.
  destruct (String.eqb_spec name ""); [contradiction|].
  rewrite Hget. cbn [String.eqb Ascii.eqb Bool.eqb].
  destruct (tasks e) as [|t ts] eqn:Et; [contradiction|].
  rewrite Hr. reflexivity.
Qed.

Lemma sort_tasks_by_deadline_example :
  let e ts := plain_event "2025-01-10" (PFloat 0) no_recurrence ts in
  let a := plain_task "a" "" (PFloat 0) in
  let b := plain_task "b" "2025-01-07" (PFloat 0) in
  let c := plain_task "c" "2025-01-05" (PFloat 0) in
  let d := plain_task "d" "2025-01-07" (PFloat 0) in
  exists r,
    snd (sort_tasks "party" "1" "1"
           (mkplanner [("party", e [a; b; c; d])] []))
    = Ok (mkplanner [("party", e r)] [])
    /\ Permutation [a; b; c; d] r.
Proof.
  intros e a b c d.
  destruct (sort_tasks_by_deadline_sorts "party"
              (mkplanner [("party", e [a; b; c; d])] []) (e [a; b; c; d]))
    as (r & Hr & Hperm & _); try reflexivity; try discriminate.
  exists r. rewrite Hr. split; [reflexivity|exact Hperm].
Defined.

(** Sorting the active tasks of an event by deadline raises [TypeError]
    exactly when the event has at least two tasks and one of them has a
    deadline that is present and does not parse. *)
Theorem sort_tasks_by_deadline_raises_iff
  (name : string) (p : planner) (e : event) :
  name <> "" ->
  Dict.get name (events p) = Some e ->
  (snd (sort_tasks name "1" "1" p) = Raise TypeError
   <-> (2 <= List.length (tasks e))%nat
       /\ existsb deadline_malformed (tasks e) = true).
Proof.
  intros Hname Hget.
  rewrite <- list_sort_by_deadline_raises_iff.
  unfold sort_tasks, get_event.
  destruct (String.eqb_spec name ""); [contradiction|].
  rewrite Hget. cbn [String.eqb Ascii.eqb Bool.eqb].
  destruct (tasks e) as [|t ts] eqn:Et.
  - simpl. split; discriminate.
  - destruct (list_sort deadline_key_lt by_deadline (t :: ts)) as [o [l|ex]];
      simpl; split; congruence.
Qed.

Lemma sort_tasks_by_deadline_raises_example :
  snd (sort_tasks "party" "1" "1"
         (mkplanner
            [("party",
              plain_event "2025-01-10" (PFloat 0) no_recurrence
                [plain_task "a" "tomorrow" (PFloat 0);
                 plain_task "b" "" (PFloat 0)])] []))
  = Raise TypeError.
Proof.
  apply (sort_tasks_by_deadline_raises_iff "party" _
           (plain_event "2025-01-10" (PFloat 0) no_recurrence
              [plain_task "a" "tomorrow" (PFloat 0);
               plain_task "b" "" (PFloat 0)])).
  - discriminate.
  - reflexivity.
  - split; [simpl; lia|reflexivity].
Defined.

(** ** More on the calendar arithmetic *)

Lemma days_in_month_other_year y y' m :
  m <> 2 -> days_in_month y m = days_in_month y' m.
Proof.
  intros Hm. unfold days_in_month.
  destruct m as [|[[[|[]|]|[[]|[]|]|]|[[|[]|]|[[]|[]|]|]|]|]; try reflexivity.
  contradiction.
Qed.

Lemma add_years_cases (d : date) (n : Z) :
  valid d ->
  let y := year d + n in
  (1 <= y <= 9999 ->
   add_years d n
   = Ok (if (month d =? 2) && (day d =? 29) && negb (is_leap y)
         then mkdate y 2 28
         else mkdate y (month d) (day d)))
  /\ (~ 1 <= y <= 9999 ->
      add_years d n
      = Raise (if fits_c_int y then ValueError else OverflowError)).
Proof.
  intros Hd y. apply valid_iff in Hd as (_ & Hm & Hday).
  pose proof (days_in_month_bounds (year d) (month d) Hm) as Hdim.
  unfold add_years. fold y. split.
  - intros Hy.
    destruct ((month d =? 2) && (day d =? 29) && negb (is_leap y)) eqn:E.
    + rewrite !andb_true_iff, !Z.eqb_eq, negb_true_iff in E.
      destruct E as [[Em Ed] El].
      rewrite make_date_invalid; try lia.
      2:{ rewrite Em, Ed. unfold days_in_month. rewrite El. lia. }
      apply make_date_valid; try lia. unfold days_in_month.
      destruct (is_leap y); lia.
    + rewrite make_date_valid; auto.
      destruct (Z.eq_dec (month d) 2) as [Em|Em].
      * rewrite Em in *. unfold days_in_month in *.
        rewrite Z.eqb_refl in E. simpl in E.
        destruct (is_leap y), (is_leap (year d)), (Z.eqb_spec (day d) 29);
          simpl in E; try discriminate; lia.
      * now rewrite (days_in_month_other_year y (year d)).
  - intros Hy. destruct (fits_c_int y) eqn:Ef.
    + apply fits_c_int_iff in Ef.
      rewrite make_date_invalid by lia.
      apply make_date_invalid; lia.
    + now rewrite make_date_overflow.
Qed.

(** The two kinds of error, at the edge of a C [int]. *)
Lemma errors_at_the_edge_of_c_int :
  add_months (mkdate 2024 1 31) 25769803776 = Raise OverflowError
  /\ add_months (mkdate 2024 1 31) (-12 * (2024 + 2147483648))
     = Raise ValueError
  /\ add_years (mkdate 2024 2 29) 2147483648 = Raise OverflowError
  /\ add_years (mkdate 2024 2 29) 2147481623 = Raise ValueError.
Proof. repeat split; reflexivity. Qed.

(** [add_years] shifts the year and keeps month and day, except that
    February 29 becomes February 28 when the target year is not a leap
    year.  It raises exactly when the target year is outside 1..9999:
    [ValueError] while that year fits a C [int], [OverflowError], which
    the method does not catch, beyond. *)
Theorem add_years_keeps_day_or_clamps_feb_29 (d : date) (n : Z) :
  valid d ->
  let y := year d + n in
  (1 <= y <= 9999 ->
   add_years d n
   = Ok (if (month d =? 2) && (day d =? 29) && negb (is_leap y)
         then mkdate y 2 28
         else mkdate y (month d) (day d)))
  /\ (~ 1 <= y <= 9999 ->
      add_years d n
      = Raise (if fits_c_int y then ValueError else OverflowError)).
Proof. exact (add_years_cases d n). Qed.

Lemma add_years_example :
  add_years (mkdate 2024 2 29) 1 = Ok (mkdate 2025 2 28).
Proof.
  apply (add_years_keeps_day_or_clamps_feb_29 (mkdate 2024 2 29) 1 eq_refl).
  cbn. lia.
Defined.

(** Adding twelve months per year is adding years: on a valid date
    [add_months d (12 * n)] and [add_years d n] agree, errors included. *)
Theorem add_months_by_years (d : date) (n : Z) :
  valid d -> add_months d (12 * n) = add_years d n.
Proof.
  intros Hd.
  destruct (add_months_cases d (12 * n) Hd) as (_ & Hin & Hout).
  destruct (add_years_cases d n Hd) as [Yin Yout].
  apply valid_iff in Hd as (_ & Hm & Hday).
  assert (Ey : year d + (month d - 1 + 12 * n) / 12 = year d + n).
  { f_equal. replace (month d - 1 + 12 * n) with (month d - 1 + n * 12) by lia.
    rewrite Z.div_add by lia. rewrite Z.div_small; lia. }
  assert (Em : (month d - 1 + 12 * n) mod 12 + 1 = month d).
  { replace (month d - 1 + 12 * n) with (month d - 1 + n * 12) by lia.
    rewrite Z.mod_add by lia. rewrite Z.mod_small; lia. }
  rewrite Ey in Hin, Hout. rewrite Em in Hin.
  destruct (Z_le_dec 1 (year d + n)) as [H1|H1];
    [destruct (Z_le_dec (year d + n) 9999) as [H2|H2]|].
  - rewrite (Hin (conj H1 H2)), (Yin (conj H1 H2)). f_equal.
    destruct ((month d =? 2) && (day d =? 29) && negb (is_leap (year d + n)))
      eqn:E.
    + rewrite !andb_true_iff, !Z.eqb_eq, negb_true_iff in E.
      destruct E as [[E2 E29] El]. rewrite E2, E29.
      unfold days_in_month. now rewrite El.
    + f_equal. apply Z.min_l.
      destruct (Z.eq_dec (month d) 2) as [E2|E2].
      * rewrite E2 in *. unfold days_in_month in *.
        rewrite Z.eqb_refl in E. simpl in E.
        destruct (is_leap (year d + n)), (is_leap (year d)),
          (Z.eqb_spec (day d) 29); simpl in E; try discriminate; lia.
      * now rewrite (days_in_month_other_year (year d + n) (year d)).
  - rewrite Hout, Yout by lia. reflexivity.
  - rewrite Hout, Yout by lia. reflexivity.
Qed.

Lemma add_months_by_years_example :
  add_months (mkdate 2024 2 29) 12 = add_years (mkdate 2024 2 29) 1.
Proof. exact (add_months_by_years (mkdate 2024 2 29) 1 eq_refl). Defined.

(** For a day of the month that every month has (at most 28), adding
    months composes: adding [a] months and then [b] months is adding
    [a + b] months. *)
Theorem add_months_composes (d d1 : date) (a b : Z) :
  valid d -> day d <= 28 ->
  add_months d a = Ok d1 ->
  add_months d1 b = add_months d (a + b).
Proof.
  intros Hd H28 H1.
  pose proof (add_months_ok _ _ _ H1) as [Hv1 _].
  destruct (add_months_cases d a Hd) as (Hma & Hina & Houta).
  destruct (add_months_cases d (a + b) Hd) as (Hmab & Hinab & Houtab).
  destruct (add_months_cases d1 b Hv1) as (Hmb & Hinb & Houtb).
  set (ya := year d + (month d - 1 + a) / 12) in *.
  set (ma := (month d - 1 + a) mod 12 + 1) in *.
  assert (Hya : 1 <= ya <= 9999).
  { destruct (Z_le_dec 1 ya); [destruct (Z_le_dec ya 9999)|]; try lia;
      rewrite Houta in H1 by lia; discriminate. }
  rewrite (Hina Hya) in H1. injection H1 as <-.
  cbn [year month day] in *.
  pose proof (days_in_month_bounds ya ma Hma) as Hdim.
  rewrite (Z.min_l (day d)) in * by lia.
  assert (Ey : ya + (ma - 1 + b) / 12 = year d + (month d - 1 + (a + b)) / 12).
  { unfold ya, ma.
    pose proof (Z_div_mod_eq_full (month d - 1 + a) 12) as Ea.
    replace (month d - 1 + (a + b))
      with ((month d - 1 + a) mod 12 + b + (month d - 1 + a) / 12 * 12) by lia.
    rewrite Z.div_add by lia.
    replace ((month d - 1 + a) mod 12 + 1 - 1 + b)
      with ((month d - 1 + a) mod 12 + b) by lia. lia. }
  assert (Em : (ma - 1 + b) mod 12 + 1 = (month d - 1 + (a + b)) mod 12 + 1).
  { unfold ma. f_equal.
    pose proof (Z_div_mod_eq_full (month d - 1 + a) 12) as Ea.
    replace (month d - 1 + (a + b))
      with ((month d - 1 + a) mod 12 + b + (month d - 1 + a) / 12 * 12) by lia.
    rewrite Z.mod_add by lia. f_equal. lia. }
  rewrite Ey in Hinb, Houtb. rewrite Em in Hinb.
  set (yab := year d + (month d - 1 + (a + b)) / 12) in *.
  set (mab := (month d - 1 + (a + b)) mod 12 + 1) in *.
  pose proof (days_in_month_bounds yab mab Hmab) as Hdim'.
  destruct (Z_le_dec 1 yab) as [G1|G1];
    [destruct (Z_le_dec yab 9999) as [G2|G2]|].
  - rewrite (Hinb (conj G1 G2)), (Hinab (conj G1 G2)).
    reflexivity.
  - rewrite Houtb, Houtab by lia. reflexivity.
  - rewrite Houtb, Houtab by lia. reflexivity.
Qed.

Lemma add_months_composes_example :
  add_months (mkdate 2024 12 15) 5 = add_months (mkdate 2024 11 15) (1 + 5).
Proof.
  exact (add_months_composes (mkdate 2024 11 15) (mkdate 2024 12 15) 1 5
           eq_refl ltac:(simpl; lia) eq_refl).
Defined.

(** While the loop of [upcoming_events] advances by an interval of at
    least one from a valid date toward a valid limit date, it ends: more
    iterations than there are days from the current date to the limit
    (plus one) always suffice. *)
Theorem recurrence_loop_ends_within_the_days_to_the_limit
  (today limit : date) (freq : option string) (interval : Z)
  (fuel : nat) (next : date) :
  1 <= interval -> valid limit -> valid next ->
  (Z.to_nat (toordinal limit - toordinal next + 1) < fuel)%nat ->
  exists r, recurrence_loop fuel today limit freq interval next = Some r.
Proof.
  intros Hi Hl Hn Hf. now apply recurrence_loop_terminates.
Qed.

Lemma recurrence_loop_ends_example :
  exists r,
    recurrence_loop 40 (mkdate 2025 1 10) (mkdate 2024 2 1) (Some "weekly") 2
      (mkdate 2024 1 1) = Some r.
Proof.
  apply (recurrence_loop_ends_within_the_days_to_the_limit
           (mkdate 2025 1 10) (mkdate 2024 2 1) (Some "weekly") 2 40
           (mkdate 2024 1 1)).
  - lia.
  - reflexivity.
  - reflexivity.
  - vm_compute. lia.
Defined.

(** ** The deadline invariant at interactive insert and edit *)

Lemma add_tasks_check_deadline_ok (e : event) (dl : string) :
  exists stored warn,
    add_tasks_check_deadline e dl = Ok (stored, warn)
    /\ (stored = dl \/ stored = "")
    /\ deadline_ok e (mktask "" stored "" "" PNone)
       || enabled (ev_recurrence e) = true.
Proof.
  unfold add_tasks_check_deadline, deadline_ok.
  cbn [deadline].
  destruct (String.eqb dl "") eqn:Edl.
  { exists dl, []. rewrite Edl. auto. }
  destruct (strptime dl) as [td|ex] eqn:Etd; cbn [bind].
  2:{ apply strptime_raises in Etd. subst ex. exists "". eexists.
      split; [reflexivity|]. auto. }
  destruct (strptime (ev_date e)) as [ed|ex] eqn:Eed; cbn [bind].
  2:{ apply strptime_raises in Eed. subst ex. exists "". eexists.
      split; [reflexivity|]. auto. }
  rewrite date_ltb_leb.
  destruct (enabled (ev_recurrence e)); cbn [negb andb].
  { exists dl. eexists. split; [reflexivity|]. rewrite orb_true_r. auto. }
  destruct (date_leb td ed) eqn:Ele; cbn [negb].
  - exists dl. eexists. split; [reflexivity|].
    rewrite Edl, Etd, Ele. auto.
  - exists "". eexists. split; [reflexivity|]. auto.
Qed.

Lemma deadline_ok_ignores_other_fields (e : event) (t : task) :
  deadline_ok e t = deadline_ok e (mktask "" (deadline t) "" "" PNone).
Proof. reflexivity. Qed.

Lemma deadline_invariant_app (e : event) (t : task) :
  deadline_invariant e = true ->
  deadline_ok e t || enabled (ev_recurrence e) = true ->
  deadline_invariant (set_tasks e (tasks e ++ [t])) = true.
Proof.
  unfold deadline_invariant. cbn [set_tasks ev_recurrence tasks].
  destruct (enabled (ev_recurrence e)); [reflexivity|]. simpl.
  rewrite orb_false_r. intros Hinv Ht.
  rewrite forallb_app, andb_true_iff. split.
  - exact Hinv.
  - simpl. rewrite andb_true_r. exact Ht.
Qed.

(** The interactive path of [add_tasks] never raises, appends exactly one
    task with the description, priority, status and budget given, and
    keeps the deadline invariant of the event, whatever deadline text it
    is given. *)
Theorem add_tasks_keeps_deadline_invariant
  (name : string) (p : planner) (e : event)
  (text dl prio stat : string) (bud : pyval) :
  name <> "" ->
  Dict.get name (events p) = Some e ->
  deadline_invariant e = true ->
  exists stored out e',
    add_tasks name text dl prio stat bud p
    = Ok (update_event name e' p, out)
    /\ tasks e' = tasks e ++ [mktask text stored prio stat bud]
    /\ (stored = dl \/ stored = "")
    /\ Dict.get name (events (update_event name e' p)) = Some e'
    /\ deadline_invariant e' = true.
Proof.
  intros Hname Hget Hinv.
  destruct (add_tasks_check_deadline_ok e dl)
    as (stored & warn & Hc & Hst & Hok).
  exists stored.
  unfold add_tasks, get_event.
  destruct (String.eqb_spec name ""); [contradiction|].
  rewrite Hget, Hc. cbn [bind].
  eexists. eexists. split; [reflexivity|].
  split; [reflexivity|]. split; [exact Hst|split].
  - apply get_set_same.
  - apply deadline_invariant_app; [exact Hinv|exact Hok].
Qed.

Lemma add_tasks_keeps_invariant_example :
  let e := plain_event "2025-01-10" (PFloat 0) no_recurrence [] in
  exists stored out e',
    add_tasks "party" "book band" "2025-02-30" "High" "Pending" (PFloat 0)
      (mkplanner [("party", e)] [])
    = Ok (update_event "party" e' (mkplanner [("party", e)] []), out)
    /\ tasks e' = [mktask "book band" stored "High" "Pending" (PFloat 0)]
    /\ deadline_invariant e' = true.
Proof.
  intros e.
  destruct (add_tasks_keeps_deadline_invariant "party"
              (mkplanner [("party", e)] []) e
              "book band" "2025-02-30" "High" "Pending" (PFloat 0))
    as (stored & out & e' & H1 & H2 & _ & _ & H3);
    [discriminate|reflexivity|reflexivity|].
  exists stored, out, e'. auto.
Defined.

(** ** The budget summary and a budget of [None] *)

Lemma sum_task_budgets_raises_on_none
  (float_of_string : string -> option float) (ts : list task) :
  (exists t, In t ts /\ task_budget t = PNone) ->
  forall total,
    snd (sum_task_budgets float_of_string ts total) = Raise TypeError.
Proof.
  induction ts as [|x ts IH]; intros (t & Hin & Ht) total;
    [contradiction|].
  simpl. destruct (task_budget x) as [|f|s] eqn:Ex; simpl; [reflexivity| |].
  - apply IH. destruct Hin as [->|Hin]; [congruence|eauto].
  - assert (Hex : exists t, In t ts /\ task_budget t = PNone).
    { destruct Hin as [->|Hin]; [congruence|eauto]. }
    destruct (float_of_string s); simpl; [now apply IH|].
    specialize (IH Hex total).
    now destruct (sum_task_budgets float_of_string ts total).
Qed.

(** A task whose budget is [None] (what the prompt stores after five
    invalid inputs) makes the budget summary raise [TypeError]: only a
    [ValueError] is skipped. *)
Theorem budget_summary_raises_on_none_budget
  (float_of_string : string -> option float)
  (name : string) (p : planner) (e : event) (t : task) :
  name <> "" ->
  Dict.get name (events p) = Some e ->
  In t (tasks e) ->
  task_budget t = PNone ->
  snd (view_event_budget_summary float_of_string name p) = Raise TypeError.
Proof.
  intros Hname Hget Hin Ht. unfold view_event_budget_summary, get_event.
  destruct (String.eqb_spec name ""); [contradiction|]. rewrite Hget.
  pose proof (sum_task_budgets_raises_on_none float_of_string (tasks e)
                (ex_intro _ t (conj Hin Ht)) 0%float) as H.
  destruct (sum_task_budgets float_of_string (tasks e) 0) as [warn res].
  simpl in H. subst res. reflexivity.
Qed.

Lemma budget_summary_none_example :
  snd (view_event_budget_summary no_float_of_string "party"
         (mkplanner
            [("party",
              plain_event "2025-01-10" (PFloat 100) no_recurrence
                [plain_task "venue" "" (PFloat 40);
                 plain_task "band" "" PNone])] []))
  = Raise TypeError.
Proof.
  apply (budget_summary_raises_on_none_budget no_float_of_string "party" _
           (plain_event "2025-01-10" (PFloat 100) no_recurrence
              [plain_task "venue" "" (PFloat 40);
               plain_task "band" "" PNone])
           (plain_task "band" "" PNone)).
  - discriminate.
  - reflexivity.
  - simpl. auto.
  - reflexivity.
Defined.

(** ** Round trips of the event collections *)

Lemma remove_absent {V : Type} (d : Dict.t V) k :
  Dict.mem k d = false -> Dict.remove k d = d.
Proof.
  unfold Dict.mem, Dict.remove.
  induction d as [|[k' v'] r IH]; simpl; [reflexivity|].
  destruct (String.eqb k k'); simpl; [discriminate|].
  intros H. now rewrite IH.
Qed.

Lemma remove_set_absent {V : Type} (d : Dict.t V) k v :
  Dict.mem k d = false -> Dict.remove k (Dict.set k v d) = d.
Proof.
  unfold Dict.mem, Dict.remove.
  induction d as [|[k' v'] r IH]; simpl.
  - now rewrite String.eqb_refl.
  - destruct (String.eqb k k') eqn:E; simpl; [discriminate|].
    rewrite E. simpl. intros H. now rewrite IH.
Qed.

Lemma set_get_same {V : Type} (d : Dict.t V) k v :
  Dict.get k d = Some v -> Dict.set k v d = d.
Proof.
  induction d as [|[k' v'] r IH]; simpl; [discriminate|].
  destruct (String.eqb_spec k k') as [->|Hk].
  - now intros [= ->].
  - intros H. now rewrite IH.
Qed.

Lemma set_set {V : Type} (d : Dict.t V) k v v' :
  Dict.set k v (Dict.set k v' d) = Dict.set k v d.
Proof.
  induction d as [|[k' w] r IH]; simpl.
  - now rewrite String.eqb_refl.
  - destruct (String.eqb k k') eqn:E; simpl.
    + now rewrite String.eqb_refl.
    + now rewrite E, IH.
Qed.

Lemma keys_remove {V : Type} (d : Dict.t V) k :
  Dict.keys (Dict.remove k d)
  = filter (fun k' => negb (String.eqb k k')) (Dict.keys d).
Proof.
  unfold Dict.keys, Dict.remove.
  induction d as [|[k' v] r IH]; simpl; [reflexivity|].
  destruct (String.eqb k k'); simpl; now rewrite IH.
Qed.

Lemma mem_false_get {V : Type} (d : Dict.t V) k :
  Dict.mem k d = false <-> Dict.get k d = None.
Proof.
  unfold Dict.mem. destruct (Dict.get k d); split; congruence.
Qed.

(** Creating an event under a fresh non-empty name stores it last, with no
    tasks and no archived tasks, and leaves every other event and the
    archive untouched; deleting it again (confirmed) gives back the state
    before the creation. *)
Theorem create_event_then_delete_event
  (name : string) (fields : event) (p : planner) :
  name <> "" ->
  Dict.mem name (events p) = false ->
  let p' := fst (create_event name fields p) in
  Dict.get name (events p')
  = Some (set_archived_tasks (set_tasks fields []) [])
  /\ Dict.keys (events p') = Dict.keys (events p) ++ [name]
  /\ (forall k, k <> name -> Dict.get k (events p') = Dict.get k (events p))
  /\ archived_events p' = archived_events p
  /\ delete_event name true p' = (p, [Say "Event deleted."]).
Proof.
  intros Hname Hfresh. unfold create_event.
  destruct (String.eqb_spec name ""); [contradiction|].
  rewrite Hfresh. cbn [fst events archived_events].
  split; [apply get_set_same|]. split; [now apply keys_set_absent|].
  split; [intros k Hk; now apply get_set_other|]. split; [reflexivity|].
  unfold delete_event, Dict.mem. cbn [events archived_events].
  rewrite get_set_same, (remove_set_absent _ _ _ Hfresh).
  now destruct p.
Qed.

Lemma create_then_delete_example :
  let e := plain_event "2025-01-10" (PFloat 0) no_recurrence [] in
  let p := mkplanner [("party", e)] [] in
  delete_event "picnic" true (fst (create_event "picnic" e p))
  = (p, [Say "Event deleted."]).
Proof.
  intros e p.
  apply (create_event_then_delete_event "picnic" e p);
    [discriminate|reflexivity].
Defined.

(** Archiving an active event whose name is not in the archive and then
    restoring it gives back the same events: the archive is as before, the
    event is active again with the same content, every other event is
    untouched, and the restored event now comes last in the iteration
    order. *)
Theorem archive_then_restore
  (name : string) (p : planner) (e : event) :
  Dict.get name (events p) = Some e ->
  Dict.mem name (archived_events p) = false ->
  let p' := fst (manage_event_archive "1" name p) in
  let p'' := fst (manage_event_archive "3" name p') in
  snd (manage_event_archive "3" name p') = archive_menu ++ [Say "Restored."]
  /\ archived_events p'' = archived_events p
  /\ Dict.get name (events p'') = Some e
  /\ (forall k, k <> name -> Dict.get k (events p'') = Dict.get k (events p))
  /\ Dict.keys (events p'')
     = filter (fun k => negb (String.eqb name k)) (Dict.keys (events p))
       ++ [name].
Proof.
  intros Hget Hfresh. unfold manage_event_archive.
  cbn [String.eqb Ascii.eqb Bool.eqb]. rewrite Hget.
  cbn [fst snd events archived_events].
  rewrite get_set_same.
  assert (Hm : Dict.mem name (Dict.remove name (events p)) = false)
    by (apply mem_false_get, get_remove_same).
  rewrite Hm. cbn [fst snd events archived_events].
  split; [reflexivity|]. split; [exact (remove_set_absent _ _ _ Hfresh)|].
  split; [apply get_set_same|]. split.
  - intros k Hk. rewrite get_set_other, get_remove_other; auto.
  - rewrite (keys_set_absent _ _ _ Hm).
    f_equal. apply keys_remove.
Qed.

Lemma archive_then_restore_example :
  let a := plain_event "2025-01-10" (PFloat 1) no_recurrence [] in
  let b := plain_event "2025-02-10" (PFloat 2) no_recurrence [] in
  fst (manage_event_archive "3" "party"
         (fst (manage_event_archive "1" "party"
                 (mkplanner [("party", a); ("picnic", b)] []))))
  = mkplanner [("picnic", b); ("party", a)] []
  /\ Dict.get "party"
       (events
          (fst (manage_event_archive "3" "party"
                  (fst (manage_event_archive "1" "party"
                          (mkplanner [("party", a); ("picnic", b)] []))))))
     = Some a.
Proof.
  intros a b. split; [reflexivity|].
  exact (proj1 (proj2 (proj2
           (archive_then_restore "party"
              (mkplanner [("party", a); ("picnic", b)] []) a
              eq_refl eq_refl)))).
Defined.

(** Toggling the pin (or the star) of an event twice gives back the
    planner as it was. *)
Theorem toggle_twice_is_identity (name : string) (p : planner) (e : event) :
  Dict.get name (events p) = Some e ->
  fst (toggle_pin_event name (fst (toggle_pin_event name p))) = p
  /\ fst (toggle_star_event name (fst (toggle_star_event name p))) = p.
Proof.
  intros Hget. unfold toggle_pin_event, toggle_star_event, update_event.
  rewrite Hget. cbn [fst events archived_events].
  rewrite !get_set_same. cbn [fst events archived_events].
  rewrite !set_set.
  replace (set_pinned (set_pinned e (negb (pinned e)))
             (negb (pinned (set_pinned e (negb (pinned e))))))
    with e by (destruct e as [? ? ? ? ? ? [] ? ? ? ? ? ? ?]; reflexivity).
  replace (set_starred (set_starred e (negb (starred e)))
             (negb (starred (set_starred e (negb (starred e))))))
    with e by (destruct e as [? ? ? ? ? ? ? [] ? ? ? ? ? ?]; reflexivity).
  rewrite (set_get_same _ _ _ Hget). now destruct p.
Qed.

Lemma toggle_twice_example :
  let e := plain_event "2025-01-10" (PFloat 0) no_recurrence [] in
  let p := mkplanner [("party", e)] [] in
  pinned_of "party" (fst (toggle_pin_event "party" p)) = Some true
  /\ fst (toggle_pin_event "party" (fst (toggle_pin_event "party" p))) = p.
Proof.
  intros e p. split; [reflexivity|].
  exact (proj1 (toggle_twice_is_identity "party" p e eq_refl)).
Defined.

(** ** Moving tasks between the active and the archived list *)

Lemma remove_nth_perm {A : Type} (l : list A) :
  forall i t, nth_error l i = Some t ->
    Permutation l (t :: remove_nth i l)
    /\ S (List.length (remove_nth i l)) = List.length l.
Proof.
  induction l as [|x l IH]; intros [|i] t H; simpl in *; try discriminate.
  - injection H as ->. auto.
  - destruct (IH i t H) as [Hp Hl]. split; [|now rewrite Hl].
    rewrite perm_swap. now constructor.
Qed.

Lemma remove_nth_last {A : Type} (l : list A) (t : A) :
  remove_nth (List.length l) (l ++ [t]) = l
  /\ nth_error (l ++ [t]) (List.length l) = Some t.
Proof.
  induction l as [|x l [IH1 IH2]]; simpl; [auto|]. now rewrite IH1.
Qed.

Lemma chosen_index_valid {A : Type} (index_input : string) (l : list A) :
  is_digit_string index_input = true ->
  1 <= int_of_digits index_input <= Z.of_nat (List.length l) ->
  chosen_index index_input l = inr (Z.to_nat (int_of_digits index_input - 1))
  /\ (Z.to_nat (int_of_digits index_input - 1) < List.length l)%nat.
Proof.
  intros Hd Hn. unfold chosen_index. rewrite Hd. cbn [negb].
  destruct (Z.ltb_spec (int_of_digits index_input - 1) 0); [lia|].
  destruct (int_of_digits index_input - 1 >=? Z.of_nat (List.length l)) eqn:E.
  { apply Z.geb_le in E. lia. }
  split; [reflexivity|lia].
Qed.

Lemma chosen_index_invalid {A : Type} (index_input : string) (l : list A) :
  ~ (is_digit_string index_input = true
     /\ 1 <= int_of_digits index_input <= Z.of_nat (List.length l)) ->
  exists err, chosen_index index_input l = inl err.
Proof.
  intros H. unfold chosen_index.
  destruct (is_digit_string index_input); cbn [negb]; [|eauto].
  destruct (Z.ltb_spec (int_of_digits index_input - 1) 0);
    [simpl; eauto|].
  destruct (int_of_digits index_input - 1 >=? Z.of_nat (List.length l)) eqn:E;
    [simpl; eauto|]. simpl.
  exfalso. apply H. split; [reflexivity|].
  rewrite Z.geb_leb in E. apply Z.leb_gt in E. lia.
Qed.

Lemma archive_task_valid
  (name index_input : string) (p : planner) (e : event) :
  name <> "" ->
  Dict.get name (events p) = Some e ->
  is_digit_string index_input = true ->
  1 <= int_of_digits index_input <= Z.of_nat (List.length (tasks e)) ->
  exists t,
    nth_error (tasks e) (Z.to_nat (int_of_digits index_input - 1)) = Some t
    /\ fst (archive_task name index_input p)
       = update_event name
           (set_both_tasks e
              (remove_nth (Z.to_nat (int_of_digits index_input - 1))
                 (tasks e))
              (archived_tasks e ++ [t])) p.
Proof.
  intros Hname Hget Hd Hn. unfold archive_task, get_event.
  destruct (String.eqb_spec name ""); [contradiction|]. rewrite Hget.
  destruct (chosen_index_valid index_input (tasks e) Hd Hn) as [Hc Hlt].
  destruct (nth_error (tasks e) (Z.to_nat (int_of_digits index_input - 1)))
    as [t|] eqn:Et.
  2:{ apply nth_error_None in Et. lia. }
  exists t. split; [reflexivity|].
  destruct (tasks e) as [|t0 ts] eqn:Ets; [simpl in Hlt; lia|].
  now rewrite Hc, Et.
Qed.

(** [archive_task] moves exactly one task.  The task number is ASCII
    text of at most 4300 characters.  For a number within the list, the
    numbered task leaves the active tasks and goes last in the archived
    tasks, nothing is lost or duplicated, and every other field of the
    event is kept; for any other such text the planner is left as it
    was. *)
Theorem archive_task_moves_one_task
  (name index_input : string) (p : planner) (e : event) :
  name <> "" ->
  Dict.get name (events p) = Some e ->
  plain_number_input index_input ->
  (is_digit_string index_input = true
   /\ 1 <= int_of_digits index_input <= Z.of_nat (List.length (tasks e)) ->
   exists t,
     nth_error (tasks e) (Z.to_nat (int_of_digits index_input - 1)) = Some t
     /\ fst (archive_task name index_input p)
        = update_event name
            (set_both_tasks e
               (remove_nth (Z.to_nat (int_of_digits index_input - 1))
                  (tasks e))
               (archived_tasks e ++ [t])) p
     /\ Permutation (tasks e)
          (t :: remove_nth (Z.to_nat (int_of_digits index_input - 1))
                  (tasks e)))
  /\ (~ (is_digit_string index_input = true
         /\ 1 <= int_of_digits index_input
            <= Z.of_nat (List.length (tasks e))) ->
      fst (archive_task name index_input p) = p).
Proof.
  intros Hname Hget _. unfold archive_task, get_event.
  destruct (String.eqb_spec name ""); [contradiction|]. rewrite Hget.
  split.
  - intros [Hd Hn].
    destruct (chosen_index_valid index_input (tasks e) Hd Hn) as [Hc Hlt].
    destruct (nth_error (tasks e) (Z.to_nat (int_of_digits index_input - 1)))
      as [t|] eqn:Et.
    2:{ apply nth_error_None in Et. lia. }
    exists t. split; [reflexivity|].
    destruct (tasks e) as [|t0 ts] eqn:Ets; [simpl in Hlt; lia|].
    rewrite Hc, Et. split; [reflexivity|].
    now apply remove_nth_perm.
  - intros Hbad.
    destruct (tasks e) as [|t0 ts] eqn:Ets; [reflexivity|].
    destruct (chosen_index_invalid index_input (t0 :: ts) Hbad) as [err ->].
    reflexivity.
Qed.

Lemma archive_task_example :
  let a := plain_task "a" "" (PFloat 0) in
  let b := plain_task "b" "" (PFloat 0) in
  let e ts := plain_event "2025-01-10" (PFloat 0) no_recurrence ts in
  fst (archive_task "party" "1" (mkplanner [("party", e [a; b])] []))
  = mkplanner [("party", set_archived_tasks (e [b]) [a])] []
  /\ fst (archive_task "party" "3" (mkplanner [("party", e [a; b])] []))
     = mkplanner [("party", e [a; b])] [].
Proof.
  intros a b e. split; [reflexivity|].
  apply (archive_task_moves_one_task "party" "3"
           (mkplanner [("party", e [a; b])] []) (e [a; b]));
    [discriminate|reflexivity|split; [reflexivity|simpl; lia]|].
  intros [_ H]. vm_compute in H. destruct H as [_ H]. now apply H.
Defined.

(** Archiving a task and restoring the task just archived (the last of
    the archived list) puts it back among the active tasks, at the end,
    and leaves the archived list as it was. *)
Theorem archive_task_then_restore
  (name index_input restore_input : string) (p : planner) (e : event) :
  name <> "" ->
  Dict.get name (events p) = Some e ->
  is_digit_string index_input = true ->
  1 <= int_of_digits index_input <= Z.of_nat (List.length (tasks e)) ->
  is_digit_string restore_input = true ->
  int_of_digits restore_input
  = Z.of_nat (List.length (archived_tasks e)) + 1 ->
  exists t,
    nth_error (tasks e) (Z.to_nat (int_of_digits index_input - 1)) = Some t
    /\ fst (restore_archived_task name restore_input
              (fst (archive_task name index_input p)))
       = update_event name
           (set_tasks e
              (remove_nth (Z.to_nat (int_of_digits index_input - 1)) (tasks e)
                 ++ [t])) p.
Proof.
  intros Hname Hget Hd Hn Hd2 Hn2.
  destruct (archive_task_valid name index_input p e Hname Hget Hd Hn)
    as (t & Ht & Hp').
  exists t. split; [exact Ht|]. rewrite Hp'.
  unfold restore_archived_task, get_event, update_event.
  destruct (String.eqb_spec name ""); [contradiction|].
  cbn [events archived_events]. rewrite get_set_same.
  cbn [set_both_tasks set_archived_tasks set_tasks archived_tasks tasks].
  destruct (remove_nth_last (archived_tasks e) t) as [Hr Hnth].
  assert (Hc : chosen_index restore_input (archived_tasks e ++ [t])
               = inr (List.length (archived_tasks e))).
  { destruct (chosen_index_valid restore_input (archived_tasks e ++ [t]) Hd2)
      as [Hc _].
    - rewrite length_app. simpl. lia.
    - rewrite Hc. f_equal. lia. }
  destruct (archived_tasks e ++ [t]) as [|x xs] eqn:Ea.
  { destruct (archived_tasks e); discriminate. }
  rewrite Hc, Hnth, Hr. cbn [fst events archived_events].
  rewrite set_set. reflexivity.
Qed.

Lemma archive_task_then_restore_example :
  let a := plain_task "a" "" (PFloat 0) in
  let b := plain_task "b" "" (PFloat 0) in
  let e ts := plain_event "2025-01-10" (PFloat 0) no_recurrence ts in
  fst (restore_archived_task "party" "1"
         (fst (archive_task "party" "1"
                 (mkplanner [("party", e [a; b])] []))))
  = mkplanner [("party", e [b; a])] [].
Proof.
  intros a b e.
  destruct (archive_task_then_restore "party" "1" "1"
              (mkplanner [("party", e [a; b])] []) (e [a; b]))
    as (t & Ht & H).
  - discriminate.
  - reflexivity.
  - reflexivity.
  - vm_compute. split; discriminate.
  - reflexivity.
  - reflexivity.
  - vm_compute in Ht. injection Ht as <-. exact H.
Defined.

(** ** Marking progress *)

Lemma replace_nth_spec {A : Type} (l : list A) :
  forall i x, (i < List.length l)%nat ->
    List.length (replace_nth i x l) = List.length l
    /\ nth_error (replace_nth i x l) i = Some x
    /\ forall j, j <> i ->
         nth_error (replace_nth i x l) j = nth_error l j.
Proof.
  induction l as [|y l IH]; intros [|i] x Hi; simpl in *; try lia.
  - repeat split; auto. intros [|j] Hj; [contradiction|reflexivity].
  - destruct (IH i x) as (H1 & H2 & H3); [lia|].
    repeat split; auto. intros [|j] Hj; [reflexivity|].
    simpl. apply H3. congruence.
Qed.

(** [mark_task_progress] changes the status of the numbered task only: on
    a task number within the list and one of the three statuses, the tasks
    keep their number and order, the numbered task gets the new status and
    keeps its other fields, and every other task is untouched; on a status
    that is not one of the three the planner is left as it was. *)
Theorem mark_task_progress_changes_one_status
  (name index_input new_status : string) (p : planner) (e : event) :
  name <> "" ->
  Dict.get name (events p) = Some e ->
  is_digit_string index_input = true ->
  1 <= int_of_digits index_input <= Z.of_nat (List.length (tasks e)) ->
  let i := Z.to_nat (int_of_digits index_input - 1) in
  (valid_status new_status = false ->
   fst (mark_task_progress name index_input new_status p) = p)
  /\ (valid_status new_status = true ->
      exists t ts,
        nth_error (tasks e) i = Some t
        /\ fst (mark_task_progress name index_input new_status p)
           = update_event name (set_tasks e ts) p
        /\ List.length ts = List.length (tasks e)
        /\ nth_error ts i = Some (set_status t new_status)
        /\ forall j, j <> i -> nth_error ts j = nth_error (tasks e) j).
Proof.
  intros Hname Hget Hd Hn i.
  destruct (chosen_index_valid index_input (tasks e) Hd Hn) as [Hc Hlt].
  fold i in Hc, Hlt.
  destruct (nth_error (tasks e) i) as [t|] eqn:Et.
  2:{ apply nth_error_None in Et. lia. }
  unfold mark_task_progress, get_event.
  destruct (String.eqb_spec name ""); [contradiction|]. rewrite Hget.
  destruct (tasks e) as [|t0 ts0] eqn:Ets; [simpl in Hlt; lia|].
  rewrite Hc, Et. split.
  - intros ->. reflexivity.
  - intros ->. exists t. eexists. split; [reflexivity|].
    split; [reflexivity|]. now apply replace_nth_spec.
Qed.

Lemma mark_task_progress_example :
  let a := plain_task "a" "" (PFloat 0) in
  let b := plain_task "b" "" (PFloat 0) in
  let e ts := plain_event "2025-01-10" (PFloat 0) no_recurrence ts in
  fst (mark_task_progress "party" "2" "Done"
         (mkplanner [("party", e [a; b])] []))
  = mkplanner [("party", e [a; b])] [].
Proof.
  intros a b e.
  apply (mark_task_progress_changes_one_status "party" "2" "Done"
           (mkplanner [("party", e [a; b])] []) (e [a; b])).
  - discriminate.
  - reflexivity.
  - reflexivity.
  - vm_compute. split; discriminate.
  - reflexivity.
Defined.

(** [delete_task], on a task number that is ASCII text of at most 4300
    characters, removes exactly the numbered task when the deletion is
    confirmed and the number is within the list (the other tasks keep
    their order); declined, or for any other such text, the planner is
    left as it was. *)
Theorem delete_task_removes_one_task
  (name index_input : string) (confirm : bool) (p : planner) (e : event) :
  name <> "" ->
  Dict.get name (events p) = Some e ->
  plain_number_input index_input ->
  (confirm = true ->
   is_digit_string index_input = true ->
   1 <= int_of_digits index_input <= Z.of_nat (List.length (tasks e)) ->
   exists t,
     nth_error (tasks e) (Z.to_nat (int_of_digits index_input - 1)) = Some t
     /\ fst (delete_task name index_input confirm p)
        = update_event name
            (set_tasks e
               (remove_nth (Z.to_nat (int_of_digits index_input - 1))
                  (tasks e))) p
     /\ Permutation (tasks e)
          (t :: remove_nth (Z.to_nat (int_of_digits index_input - 1))
                  (tasks e)))
  /\ (confirm = false
      \/ ~ (is_digit_string index_input = true
            /\ 1 <= int_of_digits index_input
               <= Z.of_nat (List.length (tasks e))) ->
      fst (delete_task name index_input confirm p) = p).
Proof.
  intros Hname Hget _. unfold delete_task, get_event.
  destruct (String.eqb_spec name ""); [contradiction|]. rewrite Hget.
  split.
  - intros -> Hd Hn.
    destruct (chosen_index_valid index_input (tasks e) Hd Hn) as [Hc Hlt].
    destruct (nth_error (tasks e) (Z.to_nat (int_of_digits index_input - 1)))
      as [t|] eqn:Et.
    2:{ apply nth_error_None in Et. lia. }
    exists t. split; [reflexivity|].
    destruct (tasks e) as [|t0 ts] eqn:Ets; [simpl in Hlt; lia|].
    rewrite Hc. split; [reflexivity|]. now apply remove_nth_perm.
  - intros Hbad.
    destruct (tasks e) as [|t0 ts] eqn:Ets; [reflexivity|].
    destruct (chosen_index index_input (t0 :: ts)) as [err|i] eqn:Ec;
      [reflexivity|].
    destruct Hbad as [->|Hbad]; [reflexivity|].
    destruct (chosen_index_invalid index_input (t0 :: ts) Hbad) as [err Herr].
    congruence.
Qed.

Lemma delete_task_example :
  let a := plain_task "a" "" (PFloat 0) in
  let b := plain_task "b" "" (PFloat 0) in
  let e ts := plain_event "2025-01-10" (PFloat 0) no_recurrence ts in
  fst (delete_task "party" "2" false (mkplanner [("party", e [a; b])] []))
  = mkplanner [("party", e [a; b])] [].
Proof.
  intros a b e.
  apply (delete_task_removes_one_task "party" "2" false
           (mkplanner [("party", e [a; b])] []) (e [a; b]));
    [discriminate|reflexivity|split; [reflexivity|simpl; lia]|]. now left.
Defined.

(** ** Deadlines due soon *)

Lemma task_due_in (today : date) (name : string) (t : task) (s : spoken) :
  In s (task_due today name t) <->
  exists d,
    s = TaskDue (task_text t) name (deadline t)
    /\ strptime (deadline t) = Ok d
    /\ 0 <= days_between d today <= 3.
Proof.
  unfold task_due.
  destruct (String.eqb (deadline t) "") eqn:Ee.
  { apply String.eqb_eq in Ee. rewrite Ee. simpl. split; [intros []|].
    intros (d & _ & H & _). discriminate. }
  destruct (strptime (deadline t)) as [d|ex].
  2:{ simpl. split; [intros []|]. intros (d & _ & H & _). discriminate. }
  destruct ((0 <=? days_between d today) && (days_between d today <=? 3))
    eqn:Ew.
  - apply andb_true_iff in Ew as [E1 E2].
    apply Z.leb_le in E1, E2. simpl. split.
    + intros [<-|[]]. exists d. auto.
    + intros (d' & -> & _). auto.
  - simpl. split; [intros []|]. intros (d' & _ & [= <-] & H1 & H2).
    apply Z.leb_le in H1, H2. rewrite H1, H2 in Ew. discriminate.
Qed.

(** [check_task_deadlines] reports a task exactly when it is an active
    task of an event, its deadline parses, and the deadline is 0 to 3 days
    after today; tasks with no deadline or a malformed one are skipped, and
    nothing is raised. *)
Theorem check_task_deadlines_reports_due_tasks
  (today : date) (p : planner) (text name dl : string) :
  In (TaskDue text name dl) (check_task_deadlines today p)
  <-> exists e t d,
        In (name, e) (events p) /\ In t (tasks e)
        /\ task_text t = text /\ deadline t = dl
        /\ strptime dl = Ok d
        /\ 0 <= days_between d today <= 3.
Proof.
  unfold check_task_deadlines.
  set (due := flat_map _ (events p)).
  assert (Hin : In (TaskDue text name dl)
                   (Line (Say "Tasks due in the next three days.") :: due
                      ++ match due with
                         | [] => [Line (Say "No urgent tasks due.")]
                         | _ => []
                         end)
                <-> In (TaskDue text name dl) due).
  { simpl. rewrite in_app_iff. split; [|auto].
    intros [H|[H|H]]; [discriminate|exact H|].
    destruct due; [|contradiction]. destruct H as [H|[]]. discriminate. }
  rewrite Hin. unfold due. rewrite in_flat_map. split.
  - intros ([n e] & Hne & H). cbn [fst snd] in H.
    apply in_flat_map in H as (t & Ht & H).
    apply task_due_in in H as (d & Heq & Hd & Hw).
    injection Heq as H1 H2 H3. subst text name dl. exists e, t, d. auto 10.
  - intros (e & t & d & He & Ht & <- & <- & Hd & Hw).
    exists (name, e). split; [exact He|]. cbn [fst snd].
    apply in_flat_map. exists t. split; [exact Ht|].
    apply task_due_in. exists d. auto.
Qed.

(** ** The countdown *)

(** [countdown_to_event], for an event whose date parses and a valid
    today: a later date gives the positive number of days left, the same
    date gives "is today", an earlier date gives the positive number of
    days passed. *)
Theorem countdown_follows_date_order
  (name : string) (today : date) (p : planner) (e : event) (target : date) :
  name <> "" ->
  Dict.get name (events p) = Some e ->
  strptime (ev_date e) = Ok target ->
  valid today ->
  match date_cmp today target with
  | Lt => exists n, 0 < n /\ n = toordinal target - toordinal today
                    /\ countdown_to_event name today p = [DaysLeft n name]
  | Eq => countdown_to_event name today p = [IsToday name]
  | Gt => exists n, 0 < n /\ n = toordinal today - toordinal target
                    /\ countdown_to_event name today p = [DaysAgo n name]
  end.
Proof.
  intros Hname Hget Ht Hv. pose proof (strptime_valid _ _ Ht) as Hvt.
  unfold countdown_to_event, get_event.
  destruct (String.eqb_spec name ""); [contradiction|].
  rewrite Hget, Ht. cbn [map app]. unfold days_between.
  destruct (date_cmp today target) eqn:Ec.
  - apply date_cmp_eq in Ec. subst target.
    rewrite Z.sub_diag. reflexivity.
  - pose proof (toordinal_lt _ _ Hv Hvt Ec).
    exists (toordinal target - toordinal today). split; [lia|].
    split; [reflexivity|].
    destruct (Z.gtb_spec (toordinal target - toordinal today) 0); [|lia].
    reflexivity.
  - assert (Ec' : date_cmp target today = Lt).
    { rewrite date_cmp_antisym, Ec. reflexivity. }
    pose proof (toordinal_lt _ _ Hvt Hv Ec').
    exists (toordinal today - toordinal target). split; [lia|].
    split; [reflexivity|].
    destruct (Z.gtb_spec (toordinal target - toordinal today) 0); [lia|].
    destruct (Z.eqb_spec (toordinal target - toordinal today) 0); [lia|].
    f_equal. f_equal. lia.
Qed.

Lemma countdown_example :
  countdown_to_event "party" (mkdate 2025 1 10)
    (mkplanner
       [("party", plain_event "2025-03-01" (PFloat 0) no_recurrence [])] [])
  = [DaysLeft 50 "party"].
Proof.
  destruct (countdown_follows_date_order "party" (mkdate 2025 1 10)
              (mkplanner
                 [("party",
                   plain_event "2025-03-01" (PFloat 0) no_recurrence [])] [])
              (plain_event "2025-03-01" (PFloat 0) no_recurrence [])
              (mkdate 2025 3 1))
    as (n & _ & Hn & H).
  - discriminate.
  - reflexivity.
  - reflexivity.
  - reflexivity.
  - rewrite H. vm_compute in Hn. now rewrite Hn.
Defined.

(** ** Sorting by priority and completion, and sorting events *)

Lemma zltb_ok (a b : Z) : True -> True -> Ok (a <? b) = Ok (a <? b).
Proof. reflexivity. Qed.

Lemma bool_ltb_facts :
  (forall a, negb a && a = false)
  /\ (forall a b c, negb a && b = true -> negb b && c = true ->
                    negb a && c = true)
  /\ (forall a b c, negb a && b = false -> negb b && c = false ->
                    negb a && c = false).
Proof. repeat split; intros; destruct a; try destruct b; try destruct c; auto. Qed.

(** Sorting the active tasks by priority never fails and stores a stable
    permutation of the tasks with High before Medium (or anything else)
    before Low; sorting by "completed last" likewise puts every Completed
    task after the others, stably. *)
Theorem sort_tasks_by_priority_and_completion
  (name : string) (p : planner) (e : event) :
  name <> "" ->
  Dict.get name (events p) = Some e ->
  tasks e <> [] ->
  (exists r,
     snd (sort_tasks name "1" "2" p)
     = Ok (update_event name (set_tasks e r) p)
     /\ Permutation (tasks e) r
     /\ StronglySorted (fun a b => priority_rank a <= priority_rank b) r
     /\ forall k,
          filter (fun t => priority_rank t =? k) r
          = filter (fun t => priority_rank t =? k) (tasks e))
  /\ (exists r,
        snd (sort_tasks name "1" "3" p)
        = Ok (update_event name (set_tasks e r) p)
        /\ Permutation (tasks e) r
        /\ StronglySorted
             (fun a b => is_completed a = true -> is_completed b = true) r
        /\ forall k,
             filter (fun t => Bool.eqb (is_completed t) k) r
             = filter (fun t => Bool.eqb (is_completed t) k) (tasks e)).
Proof.
  intros Hname Hget Hne.
  destruct bool_ltb_facts as (B1 & B2 & B3).
  split.
  - destruct (list_sort_ok (fun a b => Ok (a <? b)) by_priority Z.ltb
                priority_rank (fun _ => True) zltb_ok Z.ltb_irrefl)
      with (l := tasks e) as (r & Hr & Hperm & Hs & Hst).
    + intros a b c. rewrite !Z.ltb_lt. lia.
    + intros a b c. rewrite !Z.ltb_ge. lia.
    + reflexivity.
    + apply Forall_forall. auto.
    + exists r. split; [|split; [exact Hperm|split]].
      * unfold sort_tasks, get_event.
        destruct (String.eqb_spec name ""); [contradiction|].
        rewrite Hget. cbn [String.eqb Ascii.eqb Bool.eqb].
        destruct (tasks e) as [|t ts] eqn:Et; [contradiction|].
        rewrite Hr. reflexivity.
      * eapply StronglySorted_change with (P := fun _ => True);
          [|apply Forall_forall; auto|exact Hs].
        intros a b _ _. simpl. rewrite Z.ltb_ge. auto.
      * intros k. specialize (Hst k).
        assert (Heq : forall t,
                   (priority_rank t =? k)
                   = negb (priority_rank t <? k) && negb (k <? priority_rank t)).
        { intros t.
          destruct (Z.ltb_spec (priority_rank t) k),
            (Z.ltb_spec k (priority_rank t)),
            (Z.eqb_spec (priority_rank t) k); simpl; auto; lia. }
        rewrite !(filter_ext _ _ Heq). exact Hst.
  - destruct (list_sort_ok (fun a b => Ok (negb a && b)) by_completed
                (fun a b => negb a && b) is_completed (fun _ => True)
                (fun a b _ _ => eq_refl) B1 B2 B3 (fun t => eq_refl)
                (tasks e))
      as (r & Hr & Hperm & Hs & Hst).
    + apply Forall_forall. auto.
    + exists r. split; [|split; [exact Hperm|split]].
      * unfold sort_tasks, get_event.
        destruct (String.eqb_spec name ""); [contradiction|].
        rewrite Hget. cbn [String.eqb Ascii.eqb Bool.eqb].
        destruct (tasks e) as [|t ts] eqn:Et; [contradiction|].
        rewrite Hr. reflexivity.
      * eapply StronglySorted_change with (P := fun _ => True);
          [|apply Forall_forall; auto|exact Hs].
        intros a b _ _. simpl.
        destruct (is_completed a), (is_completed b); simpl; auto;
          discriminate.
      * intros k. specialize (Hst k).
        assert (Heq : forall t,
                   Bool.eqb (is_completed t) k
                   = negb (negb (is_completed t) && k)
                     && negb (negb k && is_completed t)).
        { intros t. destruct (is_completed t), k; reflexivity. }
        rewrite !(filter_ext _ _ Heq). exact Hst.
Qed.

Lemma sort_tasks_by_priority_example :
  let a := mktask "a" "" "Low" "Pending" (PFloat 0) in
  let b := mktask "b" "" "High" "Completed" (PFloat 0) in
  let e ts := plain_event "2025-01-10" (PFloat 0) no_recurrence ts in
  exists r,
    snd (sort_tasks "party" "1" "2" (mkplanner [("party", e [a; b])] []))
    = Ok (mkplanner [("party", e r)] [])
    /\ Permutation [a; b] r.
Proof.
  intros a b e.
  destruct (sort_tasks_by_priority_and_completion "party"
              (mkplanner [("party", e [a; b])] []) (e [a; b]))
    as [(r & Hr & Hperm & _) _].
  - discriminate.
  - reflexivity.
  - discriminate.
  - exists r. split; [exact Hr|exact Hperm].
Defined.

Lemma event_by_date_key (p : planner) (name : string) :
  snd (event_by_date p name) = Ok (event_date_key p name).
Proof.
  unfold event_by_date, event_date_key.
  destruct (Dict.get name (events p)) as [e|]; [|reflexivity].
  destruct (strptime (ev_date e)); reflexivity.
Qed.

(** Sorting the events by date never fails, whatever the dates: it lists
    the names of all events, each once, in an order sorted by date, an
    event whose date does not parse counting as 9999-12-31; the events are
    only listed, the planner is not changed. *)
Theorem sort_events_by_date_lists_sorted_names (p : planner) :
  exists printed r,
    sort_events "2" p
    = map Line sort_events_menu ++ map Line printed
        ++ Line (Say "Here are your sorted events.")
        :: map (sorted_event_line p) r
    /\ Permutation (Dict.keys (events p)) r
    /\ StronglySorted
         (fun a b =>
            datetime_ltb (event_date_key p b) (event_date_key p a) = false) r.
Proof.
  destruct (list_sort_ok (fun a b => Ok (datetime_ltb a b)) (event_by_date p)
              datetime_ltb (event_date_key p) (fun _ => True)
              (fun a b _ _ => eq_refl) datetime_ltb_irrefl
              datetime_ltb_trans datetime_ltb_negtrans (event_by_date_key p)
              (Dict.keys (events p)))
    as (r & Hr & Hperm & Hs & _).
  { apply Forall_forall. auto. }
  eexists. exists r. split; [|split; [exact Hperm|exact Hs]].
  unfold sort_events. cbn [String.eqb Ascii.eqb Bool.eqb].
  rewrite Hr. reflexivity.
Qed.

(** ** Editing a deadline keeps the invariant *)

Lemma forallb_replace_nth {A : Type} (f : A -> bool) (l : list A) :
  forall i x, forallb f l = true -> f x = true ->
    forallb f (replace_nth i x l) = true.
Proof.
  induction l as [|y l IH]; intros [|i] x Hl Hx; simpl in *; auto.
  - apply andb_true_iff in Hl as [_ Hl]. now rewrite Hx.
  - apply andb_true_iff in Hl as [Hy Hl]. rewrite Hy. simpl. now apply IH.
Qed.

Lemma replace_nth_length {A : Type} (l : list A) :
  forall i x, List.length (replace_nth i x l) = List.length l.
Proof.
  induction l as [|y l IH]; intros [|i] x; simpl; auto.
Qed.

Lemma edit_task_check_deadline_ok (e : event) (dl : string) :
  deadline_ok e (mktask "" (fst (edit_task_check_deadline e dl)) "" "" PNone)
  || enabled (ev_recurrence e) = true.
Proof.
  unfold edit_task_check_deadline, deadline_ok. cbn [deadline].
  destruct (String.eqb dl "") eqn:Edl.
  { cbn [fst]. now rewrite Edl. }
  destruct (strptime dl) as [td|ex] eqn:Etd; cbn [bind]; [|reflexivity].
  destruct (strptime (ev_date e)) as [ed|ex] eqn:Eed; cbn [bind];
    [|reflexivity].
  rewrite date_ltb_leb.
  destruct (enabled (ev_recurrence e)); cbn [negb andb fst].
  { now rewrite orb_true_r. }
  destruct (date_leb td ed) eqn:Ele; cbn [negb fst]; [|reflexivity].
  now rewrite Edl, Etd, Ele.
Qed.

(** Editing the deadline of a task through [edit_task] keeps the deadline
    invariant of the event and the number of its tasks, whatever task
    number and deadline text are entered. *)
Theorem edit_task_keeps_deadline_invariant
  (name index_input dl : string) (p : planner) (e : event) :
  name <> "" ->
  Dict.get name (events p) = Some e ->
  deadline_invariant e = true ->
  exists e',
    Dict.get name (events (fst (edit_task_deadline name index_input dl p)))
    = Some e'
    /\ List.length (tasks e') = List.length (tasks e)
    /\ deadline_invariant e' = true.
Proof.
  intros Hname Hget Hinv. unfold edit_task_deadline, get_event.
  destruct (String.eqb_spec name ""); [contradiction|]. rewrite Hget.
  destruct (tasks e) as [|t0 ts] eqn:Ets.
  { exists e. rewrite Ets. auto. }
  destruct (negb (is_digit_string index_input)).
  { exists e. rewrite Ets. auto. }
  destruct ((int_of_digits index_input - 1 <? 0)
            || (int_of_digits index_input - 1
                >=? Z.of_nat (List.length (t0 :: ts)))).
  { exists e. rewrite Ets. auto. }
  destruct (nth_error (t0 :: ts) (Z.to_nat (int_of_digits index_input - 1)))
    as [t|].
  2:{ exists e. rewrite Ets. auto. }
  pose proof (edit_task_check_deadline_ok e dl) as Hok.
  destruct (edit_task_check_deadline e dl) as [stored warn].
  cbn [fst] in *. eexists. split; [apply get_set_same|].
  cbn [set_tasks tasks]. split; [apply replace_nth_length|].
  unfold deadline_invariant in *.
  cbn [set_tasks ev_recurrence tasks].
  destruct (enabled (ev_recurrence e)); [reflexivity|]. simpl in Hinv |- *.
  rewrite orb_false_r in Hok. rewrite Ets in Hinv.
  apply forallb_replace_nth; [exact Hinv|exact Hok].
Qed.

Lemma edit_task_keeps_invariant_example :
  let a := plain_task "a" "2025-01-05" (PFloat 0) in
  let e := plain_event "2025-01-10" (PFloat 0) no_recurrence [a] in
  exists e',
    Dict.get "party"
      (events (fst (edit_task_deadline "party" "1" "2025-01-20"
                      (mkplanner [("party", e)] []))))
    = Some e'
    /\ deadline_invariant e' = true.
Proof.
  intros a e.
  destruct (edit_task_keeps_deadline_invariant "party" "1" "2025-01-20"
              (mkplanner [("party", e)] []) e) as (e' & H1 & _ & H2).
  - discriminate.
  - reflexivity.
  - reflexivity.
  - exists e'. auto.
Defined.

(** ** Where the occurrences of a recurring event fall *)

Lemma nth_candidate_daily_weekly
  (f : string) (interval : Z) (step : Z) :
  (String.eqb f "daily" = true /\ step = interval)
  \/ (String.eqb f "daily" = false /\ String.eqb f "weekly" = true
      /\ step = 7 * interval) ->
  forall k base d,
    nth_candidate (Some f) interval base k = Some d ->
    toordinal d = toordinal base + Z.of_nat k * step.
Proof.
  intros Hf. induction k as [|k IH]; intros base d H.
  - simpl in H. injection H as <-. lia.
  - cbn [nth_candidate] in H.
    destruct (advance (Some f) interval base) as [[d'|]|] eqn:Ea;
      try discriminate.
    apply IH in H. rewrite H.
    assert (Hd' : toordinal d' = toordinal base + step).
    { unfold advance in Ea.
      destruct Hf as [[Hd ->]|(Hd & Hw & ->)]; rewrite Hd in Ea;
        [|rewrite Hw in Ea]; injection Ea as Ea;
        now apply add_days_ok in Ea. }
    lia.
Qed.

(** A daily or weekly event is only ever reported on a date that is a
    whole number of steps (of [interval] days, or [7 * interval] days) after
    its base date, within the window and not after the limit date. *)
Theorem daily_and_weekly_occurrences_are_whole_steps
  (fuel : nat) (today limit base d : date) (f : string) (interval : Z) :
  String.eqb f "daily" = true \/ String.eqb f "weekly" = true ->
  recurrence_loop fuel today limit (Some f) interval base
  = Some (Ok (Some d)) ->
  let step := if String.eqb f "daily" then interval else 7 * interval in
  exists k : nat,
    toordinal d = toordinal base + Z.of_nat k * step
    /\ 0 <= days_between d today <= 7
    /\ date_leb d limit = true.
Proof.
  intros Hf Hloop step.
  apply recurrence_loop_reports in Hloop as (k & Hk & Hw & Hl & _).
  exists k. split; [|split; [now apply in_window_iff|exact Hl]].
  apply (nth_candidate_daily_weekly f interval step) in Hk; [exact Hk|].
  unfold step. destruct (String.eqb f "daily") eqn:Ed; [auto|].
  right. destruct Hf as [Hf|Hf]; [discriminate|auto].
Qed.

Lemma weekly_occurrence_example :
  exists k : nat,
    toordinal (mkdate 2024 1 29)
    = toordinal (mkdate 2024 1 1) + Z.of_nat k * (7 * 2)
    /\ 0 <= days_between (mkdate 2024 1 29) (mkdate 2024 1 25) <= 7
    /\ date_leb (mkdate 2024 1 29) (mkdate 2024 2 1) = true.
Proof.
  exact (daily_and_weekly_occurrences_are_whole_steps 10
           (mkdate 2024 1 25) (mkdate 2024 2 1) (mkdate 2024 1 1)
           (mkdate 2024 1 29) "weekly" 2 (or_intror eq_refl) eq_refl).
Defined.

Lemma nth_candidate_monthly (interval : Z) :
  forall k base d,
    nth_candidate (Some "monthly") interval base k = Some d ->
    year d * 12 + month d
    = year base * 12 + month base + Z.of_nat k * interval
    /\ day d <= day base.
Proof.
  induction k as [|k IH]; intros base d H.
  - simpl in H. injection H as <-. lia.
  - cbn [nth_candidate] in H.
    destruct (advance (Some "monthly") interval base) as [[d'|]|] eqn:Ea;
      try discriminate.
    apply IH in H as [H1 H2].
    unfold advance in Ea. cbn [String.eqb Ascii.eqb Bool.eqb] in Ea.
    injection Ea as Ea.
    pose proof (add_months_ok _ _ _ Ea) as [_ Hym].
    assert (Hday : day d' <= day base).
    { unfold add_months in Ea.
      match type of Ea with
      | match make_date ?y ?m ?dd with _ => _ end = _ =>
          assert (Em : make_date y m dd = Ok d')
            by (destruct (make_date y m dd) as [x|[]]; congruence);
            apply make_date_ok in Em as [-> _]
      end.
      cbn [day]. apply Z.le_min_l. }
    lia.
Qed.

(** A monthly event is only ever reported on a date whose month is a
    whole number of intervals after the month of its base date, and whose
    day of the month is at most the base date's (a clamped day does not
    come back in later months). *)
Theorem monthly_occurrences_keep_or_lose_the_day
  (fuel : nat) (today limit base d : date) (interval : Z) :
  recurrence_loop fuel today limit (Some "monthly") interval base
  = Some (Ok (Some d)) ->
  exists k : nat,
    year d * 12 + month d
    = year base * 12 + month base + Z.of_nat k * interval
    /\ day d <= day base
    /\ 0 <= days_between d today <= 7.
Proof.
  intros Hloop.
  apply recurrence_loop_reports in Hloop as (k & Hk & Hw & _ & _).
  exists k. apply nth_candidate_monthly in Hk as [H1 H2].
  split; [exact H1|split; [exact H2|now apply in_window_iff]].
Qed.

Lemma monthly_occurrence_example :
  exists k : nat,
    year (mkdate 2024 3 29) * 12 + month (mkdate 2024 3 29)
    = year (mkdate 2024 1 31) * 12 + month (mkdate 2024 1 31)
      + Z.of_nat k * 1
    /\ day (mkdate 2024 3 29) <= day (mkdate 2024 1 31)
    /\ 0 <= days_between (mkdate 2024 3 29) (mkdate 2024 3 25) <= 7.
Proof.
  exact (monthly_occurrences_keep_or_lose_the_day 10
           (mkdate 2024 3 25) (mkdate 2024 12 31) (mkdate 2024 1 31)
           (mkdate 2024 3 29) 1 eq_refl).
Defined.
